(** * deepthink-mcp: the routing core.

    A shallow embedding of the rate limiter ([security/rate-limiter.js]),
    the metrics collector ([utils/metrics.js]), the model selector
    ([router/model-selector.js]), the router ([router/index.js]), the base
    adapter and the Anthropic adapter ([adapters/base-adapter.js],
    [adapters/anthropic-adapter.js]) and the service the server calls
    ([o3-service.js]), followed by the properties of the specification that
    concern them and by further properties of the code.

    Conventions.
    - Every reading of the clock ([Date.now()], [new Date()]) is an explicit
      argument, in milliseconds since the epoch.
    - A JavaScript [Map] or object used as a dictionary is a [gmap]; the
      adapter registry, whose key order is shown to the user, is an
      insertion-ordered association list.
    - A function that can throw returns an [outcome]; a method that mutates
      [this] takes the object and returns the new one, also when it throws
      (a thrown error does not undo earlier writes). *)

From Stdlib Require Import ZArith QArith Qround Qcanon PrimFloat Permutation Lia.
From Stdlib Require Floats.
From stdpp Require Import gmap strings list fin_maps pretty.

Close Scope Q_scope.
Open Scope Z_scope.
Open Scope nat_scope.

(* ===================================================================== *)
(** * JavaScript values used by the model *)
(* ===================================================================== *)

(** An [Error] object with the two extra properties the code attaches. *)
Record JsError := mkError {
  message : string;
  code : option string;
  retryAfter : option Z
}.

Inductive outcome (A : Type) : Type :=
| Return (a : A)
| Throw (e : JsError).
Arguments Return {A} a.
Arguments Throw {A} e.

#[global] Instance JsError_eq_dec : EqDecision JsError.
Proof. solve_decision. Defined.

#[global] Instance outcome_eq_dec {A} `{EqDecision A} : EqDecision (outcome A).
Proof. solve_decision. Defined.

Definition threw {A} (o : outcome A) : bool :=
  match o with Return _ => false | Throw _ => true end.

(** [hay.includes(needle)] *)
Fixpoint includes (needle hay : string) : bool :=
  String.prefix needle hay ||
  match hay with
  | EmptyString => false
  | String _ rest => includes needle rest
  end.

(** [xs.join(sep)] *)
Fixpoint join (sep : string) (xs : list string) : string :=
  match xs with
  | [] => ""
  | [x] => x
  | x :: rest => x +:+ sep +:+ join sep rest
  end.

(** Truthiness of an optional string property: [undefined] and [''] are
    falsy. *)
Definition truthy (o : option string) : option string :=
  match o with
  | Some EmptyString | None => None
  | Some s => Some s
  end.

(* ===================================================================== *)
(** * RateLimiter *)
(* ===================================================================== *)

Module RateLimiter.

Record UsageWindow := mkWindow { count : nat; resetTime : Z }.

Record Limits := mkLimits { requests_per_minute : nat; burst_limit : nat }.

Record t := mkLimiter {
  limits : Limits;
  usage : gmap string UsageWindow;
  burstUsage : gmap string UsageWindow
}.

(** The keys of the constructor's [config] that reach [this.limits]. *)
Record Config := mkConfig {
  per_user_requests_per_minute : option nat;
  config_burst_limit : option nat;
  config_requests_per_minute : option nat
}.

(** [x || d] on an optional number *)
Definition or_nat (x : option nat) (d : nat) : nat :=
  match x with
  | Some (S n) => S n
  | _ => d
  end.

(** [constructor(config = {})]: the defaults are written first and the
    spread [...config] overwrites them, so a key present in [config] wins
    even when it is [0]. *)
Definition new (config : Config) : t :=
  {| limits :=
       {| requests_per_minute :=
            match config_requests_per_minute config with
            | Some n => n
            | None => or_nat (per_user_requests_per_minute config) 50
            end;
          burst_limit :=
            match config_burst_limit config with
            | Some n => n
            | None => 10
            end |};
     usage := ∅;
     burstUsage := ∅ |}.

Definition no_config : Config := mkConfig None None None.

Definition set_usage (f : gmap string UsageWindow → gmap string UsageWindow) (rl : t) : t :=
  {| limits := limits rl; usage := f (usage rl); burstUsage := burstUsage rl |}.

Definition set_burstUsage (f : gmap string UsageWindow → gmap string UsageWindow) (rl : t) : t :=
  {| limits := limits rl; usage := usage rl; burstUsage := f (burstUsage rl) |}.

Definition burstWindow : Z := 10000.
Definition minuteWindow : Z := 60000.

(** [Math.ceil(d / 1000)] on an integer number of milliseconds *)
Definition ceil_seconds (d : Z) : Z := (- ((- d) / 1000))%Z.

Definition burstKey (identifier : string) : string := identifier +:+ ":burst".

Definition burstError (resetIn : Z) : JsError :=
  {| message := "Burst rate limit exceeded. Try again in " +:+ pretty resetIn +:+ " seconds.";
     code := None;
     retryAfter := None |}.

Definition sustainedError (resetIn : Z) : JsError :=
  {| message := "Rate limit exceeded. Try again in " +:+ pretty resetIn +:+ " seconds.";
     code := Some "RATE_LIMIT_EXCEEDED";
     retryAfter := Some resetIn |}.

(** [checkBurstLimit(identifier, now)]. The window object lives in the map
    and is mutated in place, so the entry created or reset here stays in the
    map when the call throws. *)
Definition checkBurstLimit (identifier : string) (now : Z) (rl : t) : t * outcome unit :=
  let burstData :=
    match burstUsage rl !! burstKey identifier with
    | Some d => d
    | None => {| count := 0; resetTime := (now + burstWindow)%Z |}
    end in
  let burstData :=
    if (resetTime burstData <? now)%Z
    then {| count := 0; resetTime := (now + burstWindow)%Z |}
    else burstData in
  if burst_limit (limits rl) <=? count burstData
  then (set_burstUsage <[burstKey identifier := burstData]> rl,
        Throw (burstError (ceil_seconds (resetTime burstData - now))))
  else (set_burstUsage
          <[burstKey identifier :=
              {| count := S (count burstData); resetTime := resetTime burstData |}]> rl,
        Return tt).

(** [checkSustainedLimit(identifier, now)] *)
Definition checkSustainedLimit (identifier : string) (now : Z) (rl : t) : t * outcome unit :=
  let currentUsage :=
    match usage rl !! identifier with
    | Some u => u
    | None => {| count := 0; resetTime := (now + minuteWindow)%Z |}
    end in
  let currentUsage :=
    if (resetTime currentUsage <? now)%Z
    then {| count := 0; resetTime := (now + minuteWindow)%Z |}
    else currentUsage in
  if requests_per_minute (limits rl) <=? count currentUsage
  then (set_usage <[identifier := currentUsage]> rl,
        Throw (sustainedError (ceil_seconds (resetTime currentUsage - now))))
  else (set_usage
          <[identifier :=
              {| count := S (count currentUsage); resetTime := resetTime currentUsage |}]> rl,
        Return tt).

(** [checkLimit(identifier = 'anonymous')]: the burst check, then the
    sustained check unless the first one threw. *)
Definition checkLimit (identifier : option string) (now : Z) (rl : t) : t * outcome unit :=
  let identifier := default "anonymous" identifier in
  match checkBurstLimit identifier now rl with
  | (rl, Throw e) => (rl, Throw e)
  | (rl, Return _) => checkSustainedLimit identifier now rl
  end.

Record WindowUsage := mkWindowUsage {
  wu_count : nat;
  wu_limit : nat;
  wu_resetTime : Z;
  wu_remaining : Z
}.

Record Usage := mkUsage { sustained : WindowUsage; burst : WindowUsage }.

(** [w?.count || 0] *)
Definition count_or_0 (w : option UsageWindow) : nat :=
  match w with Some d => count d | None => 0 end.

(** [w?.resetTime || dflt] *)
Definition resetTime_or (w : option UsageWindow) (dflt : Z) : Z :=
  match w with
  | Some d => if (resetTime d =? 0)%Z then dflt else resetTime d
  | None => dflt
  end.

(** [getUsage(identifier)]; returns the limiter it was called on next to
    the snapshot, as every method here does. *)
Definition getUsage (identifier : string) (now : Z) (rl : t) : t * Usage :=
  let usage := usage rl !! identifier in
  let burstUsage := burstUsage rl !! burstKey identifier in
  (rl,
   {| sustained :=
        {| wu_count := count_or_0 usage;
           wu_limit := requests_per_minute (limits rl);
           wu_resetTime := resetTime_or usage (now + 60000)%Z;
           wu_remaining :=
             Z.max 0 (Z.of_nat (requests_per_minute (limits rl)) - Z.of_nat (count_or_0 usage)) |};
      burst :=
        {| wu_count := count_or_0 burstUsage;
           wu_limit := burst_limit (limits rl);
           wu_resetTime := resetTime_or burstUsage (now + 10000)%Z;
           wu_remaining :=
             Z.max 0 (Z.of_nat (burst_limit (limits rl)) - Z.of_nat (count_or_0 burstUsage)) |} |}).

(** [resetUsage(identifier)] *)
Definition resetUsage (identifier : string) (rl : t) : t :=
  set_burstUsage (delete (burstKey identifier)) (set_usage (delete identifier) rl).

Record AllUsage := mkAllUsage {
  total_clients : nat;
  clients : gmap string Usage
}.

(** [getAllUsage()]: one [getUsage] per key of [this.usage] that does not
    contain [':burst']. The limiter is threaded through the calls in key
    order. *)
Definition getAllUsage (now : Z) (rl : t) : t * AllUsage :=
  let step (acc : t * gmap string Usage) (kv : string * UsageWindow) :=
    if includes ":burst" kv.1 then acc
    else let '(rl', u) := getUsage kv.1 now acc.1 in (rl', <[kv.1 := u]> acc.2) in
  let '(rl', cs) := foldl step (rl, ∅) (map_to_list (usage rl)) in
  (rl', {| total_clients := size (usage rl); clients := cs |}).

(** [cleanup()] *)
Definition cleanup (now : Z) (rl : t) : t :=
  set_burstUsage (filter (λ kv, ¬ (resetTime kv.2 + 10000 < now)%Z))
    (set_usage (filter (λ kv, ¬ (resetTime kv.2 + 60000 < now)%Z)) rl).

(** [updateLimits(newLimits)] with both keys given *)
Definition updateLimits (newLimits : Limits) (rl : t) : t :=
  {| limits := newLimits; usage := usage rl; burstUsage := burstUsage rl |}.

(** ** Vocabulary of the properties *)

(** The window an entry stands for at time [now]: created when absent,
    started again when its reset time has passed. *)
Definition current (entry : option UsageWindow) (now window : Z) : UsageWindow :=
  match entry with
  | Some d => if (resetTime d <? now)%Z then mkWindow 0 (now + window) else d
  | None => mkWindow 0 (now + window)
  end.

(** One check of a window with limit [limit]: the entry left in the map
    and whether the request was admitted. *)
Definition windowCheck (window : Z) (limit : nat) (entry : option UsageWindow) (now : Z)
  : UsageWindow * bool :=
  let d := current entry now window in
  if limit <=? count d then (d, false)
  else (mkWindow (S (count d)) (resetTime d), true).

(** A run of calls for one identifier, at the given clock readings. *)
Fixpoint checkLimit_seq (identifier : string) (times : list Z) (rl : t)
  : t * list (outcome unit) :=
  match times with
  | [] => (rl, [])
  | now :: times =>
      let '(rl, o) := checkLimit (Some identifier) now rl in
      let '(rl, os) := checkLimit_seq identifier times rl in
      (rl, o :: os)
  end.

Definition burst_rejected (o : outcome unit) : Prop := ∃ n, o = Throw (burstError n).
Definition sustained_rejected (o : outcome unit) : Prop := ∃ n, o = Throw (sustainedError n).

(** The calls that got past the burst check: admitted, or rejected with
    the coded error of the sustained check. *)
Definition reached_sustained (o : outcome unit) : bool :=
  match o with
  | Return _ => true
  | Throw e => bool_decide (code e ≠ None)
  end.

(** The call at [t0] starts the window: no entry yet, or one whose reset
    time has passed. *)
Definition opens (entry : option UsageWindow) (t0 : Z) : Prop :=
  match entry with
  | Some d => (resetTime d < t0)%Z
  | None => True
  end.

Definition counted (d : UsageWindow) : UsageWindow := mkWindow (S (count d)) (resetTime d).

(** A trace of calls by any identifiers, each with its clock reading. *)
Fixpoint checkLimit_trace (calls : list (string * Z)) (rl : t) : t * list (outcome unit) :=
  match calls with
  | [] => (rl, [])
  | call :: calls =>
      let '(rl, o) := checkLimit (Some call.1) call.2 rl in
      let '(rl, os) := checkLimit_trace calls rl in
      (rl, o :: os)
  end.

(** The clock does not go back: no reading of the trace is before [start]
    or before the reading of an earlier call. *)
Fixpoint clock_from (start : Z) (calls : list (string * Z)) : Prop :=
  match calls with
  | [] => True
  | call :: calls => (start ≤ call.2)%Z ∧ clock_from call.2 calls
  end.

(** Every stored window is within its limit and closes no later than one
    window length after [latest]. *)
Definition windows_bounded (latest : Z) (rl : t) : Prop :=
  (∀ key d, burstUsage rl !! key = Some d →
     count d ≤ burst_limit (limits rl) ∧ (resetTime d ≤ latest + burstWindow)%Z)
  ∧ (∀ key d, usage rl !! key = Some d →
       count d ≤ requests_per_minute (limits rl) ∧ (resetTime d ≤ latest + minuteWindow)%Z).

(** An entry that a call at or after [latest] starts again: absent, or
    closed before [latest]. *)
Definition stale (latest : Z) (entry : option UsageWindow) : Prop :=
  match entry with
  | Some d => (resetTime d < latest)%Z
  | None => True
  end.

(** Two limiters that no call at or after [latest] can tell apart. *)
Definition same_from (latest : Z) (rl1 rl2 : t) : Prop :=
  limits rl1 = limits rl2
  ∧ (∀ key, burstUsage rl1 !! key = burstUsage rl2 !! key
            ∨ (stale latest (burstUsage rl1 !! key) ∧ stale latest (burstUsage rl2 !! key)))
  ∧ (∀ key, usage rl1 !! key = usage rl2 !! key
            ∨ (stale latest (usage rl1 !! key) ∧ stale latest (usage rl2 !! key))).

(** The seconds a rejection tells the caller to wait. *)
Definition retry_seconds (o : outcome unit) : option Z :=
  match o with
  | Return _ => None
  | Throw e =>
      match retryAfter e with
      | Some n => Some n
      | None => None
      end
  end.

End RateLimiter.

(* ===================================================================== *)
(** * MetricsCollector *)
(* ===================================================================== *)

(** Numbers that are counts, token totals or milliseconds are integers.
    Costs, averages and rates are JavaScript doubles in the source; here
    they are exact rationals. Dates are taken in UTC, the zone in which a
    [Date]'s local fields and its ISO string agree: a day key
    ['YYYY-MM-DD'] is the number of the day since the epoch and an hour key
    ['YYYY-MM-DDTHH'] is that day paired with the hour. *)

Module MetricsCollector.

Definition msPerDay : Z := 86400000.
Definition msPerHour : Z := 3600000.

(** [new Date(ts).toISOString().split('T')[0]] *)
Definition dateKey (ts : Z) : Z := (ts / msPerDay)%Z.

(** [`${dateKey}T${date.getHours().toString().padStart(2, '0')}`] *)
Definition hourKey (ts : Z) : Z * Z := (dateKey ts, ((ts / msPerHour) mod 24)%Z).

(** [date.setDate(date.getDate() - i)] *)
Definition daysBefore (ts : Z) (i : nat) : Z := (ts - Z.of_nat i * msPerDay)%Z.

(** [parseFloat(x.toFixed(4))]: the nearest multiple of 1/10000, a tie
    going away from zero. *)
Definition toFixed4 (x : Q) : Q :=
  let scaled := Qmult x (inject_Z 10000) in
  let n := if Qle_bool 0 x
           then Qfloor (Qplus scaled (1 # 2))
           else (- Qfloor (Qplus (Qopp scaled) (1 # 2)))%Z in
  Qred (Qmake n 10000).

(** A stored log entry *)
Record Request := mkRequest {
  model : string;
  tokens : Z;
  cost : Q;
  duration : Z;
  success : bool;
  timestamp : Z
}.

(** The argument of [record]: every property but [model] has a default. *)
Record Metric := mkMetric {
  metric_model : string;
  metric_tokens : option Z;
  metric_cost : option Q;
  metric_duration : option Z;
  metric_success : option bool;
  metric_timestamp : option Z
}.

Record Totals := mkTotals {
  total_requests : nat;
  total_tokens : Z;
  total_cost : Q;
  successful_requests : nat;
  failed_requests : nat
}.

Record ModelMetrics := mkModelMetrics {
  mm_requests : nat;
  mm_tokens : Z;
  mm_cost : Q;
  mm_avg_duration : Q;
  mm_success_rate : Q;
  mm_total_duration : Z
}.

Record ModelBucket := mkModelBucket {
  mb_requests : nat;
  mb_tokens : Z;
  mb_cost : Q
}.

Record Bucket := mkBucket {
  b_requests : nat;
  b_tokens : Z;
  b_cost : Q;
  b_models : gmap string ModelBucket
}.

Record t := mkCollector {
  requests : list Request;
  totals : Totals;
  models : gmap string ModelMetrics;
  daily : gmap Z Bucket;
  hourly : gmap (Z * Z) Bucket
}.

(** [constructor()] and [reset()] *)
Definition new : t :=
  {| requests := [];
     totals := mkTotals 0 0 0 0 0;
     models := ∅;
     daily := ∅;
     hourly := ∅ |}.

Definition bump_model (tokens : Z) (cost : Q) (b : option ModelBucket) : ModelBucket :=
  let b := default (mkModelBucket 0 0 0) b in
  {| mb_requests := S (mb_requests b);
     mb_tokens := (mb_tokens b + tokens)%Z;
     mb_cost := Qplus (mb_cost b) cost |}.

(** The update [record] applies to a day bucket and to an hour bucket. *)
Definition bump (model : string) (tokens : Z) (cost : Q) (b : option Bucket) : Bucket :=
  let b := default (mkBucket 0 0 0 ∅) b in
  {| b_requests := S (b_requests b);
     b_tokens := (b_tokens b + tokens)%Z;
     b_cost := Qplus (b_cost b) cost;
     b_models := <[model := bump_model tokens cost (b_models b !! model)]> (b_models b) |}.

(** [record(metric)]; [now] is the clock reading used when the metric has
    no timestamp. *)
Definition record (now : Z) (metric : Metric) (mc : t) : t :=
  let model := metric_model metric in
  let tokens := default 0%Z (metric_tokens metric) in
  let cost := default 0%Q (metric_cost metric) in
  let duration := default 0%Z (metric_duration metric) in
  let success := default true (metric_success metric) in
  let timestamp := default now (metric_timestamp metric) in
  let requests := requests mc ++ [mkRequest model tokens cost duration success timestamp] in
  let totals :=
    {| total_requests := S (total_requests (totals mc));
       total_tokens := (total_tokens (totals mc) + tokens)%Z;
       total_cost := Qplus (total_cost (totals mc)) cost;
       successful_requests :=
         if success then S (successful_requests (totals mc))
         else successful_requests (totals mc);
       failed_requests :=
         if success then failed_requests (totals mc)
         else S (failed_requests (totals mc)) |} in
  let modelMetrics := default (mkModelMetrics 0 0 0 0 0 0) (models mc !! model) in
  let modelRequests := filter (λ r, MetricsCollector.model r = model) requests in
  let successfulModelRequests := length (filter (λ r, MetricsCollector.success r = true) modelRequests) in
  let total_duration := (mm_total_duration modelMetrics + duration)%Z in
  let modelMetrics :=
    {| mm_requests := S (mm_requests modelMetrics);
       mm_tokens := (mm_tokens modelMetrics + tokens)%Z;
       mm_cost := Qplus (mm_cost modelMetrics) cost;
       mm_avg_duration :=
         Qdiv (inject_Z total_duration) (inject_Z (Z.of_nat (S (mm_requests modelMetrics))));
       mm_success_rate :=
         Qmult (Qdiv (inject_Z (Z.of_nat successfulModelRequests))
                     (inject_Z (Z.of_nat (length modelRequests))))
               (inject_Z 100);
       mm_total_duration := total_duration |} in
  {| requests := requests;
     totals := totals;
     models := <[model := modelMetrics]> (models mc);
     daily := <[dateKey timestamp := bump model tokens cost (daily mc !! dateKey timestamp)]> (daily mc);
     hourly := <[hourKey timestamp := bump model tokens cost (hourly mc !! hourKey timestamp)]> (hourly mc) |}.

Record DailyUsage := mkDailyUsage {
  date : Z;
  du_requests : nat;
  du_tokens : Z;
  du_cost : Q
}.

(** [getDailyUsage(days = 7)]: the loop runs [i] from [days - 1] down to
    [0]. *)
Definition getDailyUsage (days : nat) (today : Z) (mc : t) : list DailyUsage :=
  (λ i : nat,
     let dateKey := dateKey (daysBefore today i) in
     let dayData := default (mkBucket 0 0 0 ∅) (daily mc !! dateKey) in
     {| date := dateKey;
        du_requests := b_requests dayData;
        du_tokens := b_tokens dayData;
        du_cost := toFixed4 (b_cost dayData) |}) <$> reverse (seq 0 days).

(** Lexicographic order of two hour keys, as the string comparison of
    ['YYYY-MM-DDTHH'] orders them. *)
Definition hourKey_ltb (a b : Z * Z) : bool :=
  (a.1 <? b.1)%Z || ((a.1 =? b.1)%Z && (a.2 <? b.2)%Z).

(** [cleanup()] *)
Definition cleanup (now : Z) (mc : t) : t :=
  let cutoff := (now - 7 * 24 * 60 * 60 * 1000)%Z in
  let dailyCutoffKey := dateKey (daysBefore now 30) in
  let hourlyCutoffKey := hourKey (daysBefore now 7) in
  {| requests := filter (λ r, (cutoff < timestamp r)%Z) (requests mc);
     totals := totals mc;
     models := models mc;
     daily := filter (λ kv, ¬ (kv.1 < dailyCutoffKey)%Z) (daily mc);
     hourly := filter (λ kv, hourKey_ltb kv.1 hourlyCutoffKey = false) (hourly mc) |}.

(** ** Vocabulary of the properties *)

(** A sequence of [record] calls, each with the clock reading of its
    moment. *)
Definition record_all (entries : list (Z * Metric)) (mc : t) : t :=
  foldl (λ mc entry, record entry.1 entry.2 mc) mc entries.



(** ** The other readers of the collector *)

(** [date.setHours(date.getHours() - i)] *)
Definition hoursBefore (ts : Z) (i : nat) : Z := (ts - Z.of_nat i * msPerHour)%Z.

Record HourlyUsage := mkHourlyUsage {
  hour : Z * Z;
  hu_requests : nat;
  hu_tokens : Z;
  hu_cost : Q
}.

(** [getHourlyUsage(hours = 24)] *)
Definition getHourlyUsage (hours : nat) (now : Z) (mc : t) : list HourlyUsage :=
  (λ i : nat,
     let hourKey := hourKey (hoursBefore now i) in
     let hourData := default (mkBucket 0 0 0 ∅) (hourly mc !! hourKey) in
     {| hour := hourKey;
        hu_requests := b_requests hourData;
        hu_tokens := b_tokens hourData;
        hu_cost := toFixed4 (b_cost hourData) |}) <$> reverse (seq 0 hours).

(** [arr.slice(-limit)]: the last [limit] elements for a positive
    [limit]; [-0] is [0], so a [limit] of 0 takes the whole array; a
    negative [limit] drops that many elements from the front. *)
Definition slice_last {A : Type} (limit : Z) (arr : list A) : list A :=
  let len := Z.of_nat (length arr) in
  let start := if (0 <? limit)%Z then Z.max (len - limit) 0 else Z.min (- limit) len in
  drop (Z.to_nat start) arr.

(** [getRecentRequests(limit = 10)] *)
Definition getRecentRequests (limit : Z) (mc : t) : list Request :=
  (λ r, {| model := model r;
           tokens := tokens r;
           cost := toFixed4 (cost r);
           duration := duration r;
           success := success r;
           timestamp := timestamp r |}) <$> slice_last limit (requests mc).

(** ** The statistics report *)

(** [x.toFixed(2)], as the number it spells: the nearest multiple of
    1/100, a tie going away from zero. *)
Definition toFixed2 (x : Q) : Q :=
  let scaled := Qmult x (inject_Z 100) in
  let n := if Qle_bool 0 x
           then Qfloor (Qplus scaled (1 # 2))
           else (- Qfloor (Qplus (Qopp scaled) (1 # 2)))%Z in
  Qred (Qmake n 100).

(** An entry of what [getModelStats] returns ([total_duration] is deleted
    from it). *)
Record ModelStats := mkModelStats {
  ms_requests : nat;
  ms_tokens : Z;
  ms_cost : Q;
  ms_avg_duration : Q;
  ms_success_rate : Q
}.

(** The body of the first loop of [getModelStats] *)
Definition tally (modelStats : gmap string ModelMetrics) (request : Request)
  : gmap string ModelMetrics :=
  let stats := default (mkModelMetrics 0 0 0 0 0 0) (modelStats !! model request) in
  <[model request :=
      {| mm_requests := S (mm_requests stats);
         mm_tokens := (mm_tokens stats + tokens request)%Z;
         mm_cost := Qplus (mm_cost stats) (cost request);
         mm_avg_duration := mm_avg_duration stats;
         mm_success_rate := mm_success_rate stats;
         mm_total_duration := (mm_total_duration stats + duration request)%Z |}]> modelStats.

(** [getModelStats(requests)] *)
Definition getModelStats (requests : list Request) : gmap string ModelStats :=
  let modelStats := foldl tally ∅ requests in
  map_imap
    (λ name stats,
       let modelRequests := filter (λ r, model r = name) requests in
       let successfulRequests := length (filter (λ r, success r = true) modelRequests) in
       Some {| ms_requests := mm_requests stats;
               ms_tokens := mm_tokens stats;
               ms_cost := toFixed4 (mm_cost stats);
               ms_avg_duration :=
                 toFixed2 (Qdiv (inject_Z (mm_total_duration stats))
                                (inject_Z (Z.of_nat (mm_requests stats))));
               ms_success_rate :=
                 toFixed2 (Qmult (Qdiv (inject_Z (Z.of_nat successfulRequests))
                                       (inject_Z (Z.of_nat (length modelRequests))))
                                 (inject_Z 100)) |})
    modelStats.

Record CostEntry := mkCostEntry {
  ce_cost : Q;
  ce_requests : nat;
  ce_percentage : Q
}.

Record CostBreakdown := mkCostBreakdown {
  by_model : gmap string CostEntry;
  cb_total : Q;
  avg_per_request : Q
}.

(** The body of the first loop of [getCostBreakdown] *)
Definition charge (breakdown : CostBreakdown) (request : Request) : CostBreakdown :=
  let entry := default (mkCostEntry 0 0 0) (by_model breakdown !! model request) in
  {| by_model :=
       <[model request :=
           {| ce_cost := Qplus (ce_cost entry) (cost request);
              ce_requests := S (ce_requests entry);
              ce_percentage := ce_percentage entry |}]> (by_model breakdown);
     cb_total := Qplus (cb_total breakdown) (cost request);
     avg_per_request := avg_per_request breakdown |}.

(** [x > 0] *)
Definition positive (x : Q) : bool := negb (Qle_bool x 0).

(** [getCostBreakdown(requests)] *)
Definition getCostBreakdown (requests : list Request) : CostBreakdown :=
  let breakdown := foldl charge (mkCostBreakdown ∅ 0 0) requests in
  let total := toFixed4 (cb_total breakdown) in
  {| by_model :=
       (λ stats,
          {| ce_cost := toFixed4 (ce_cost stats);
             ce_requests := ce_requests stats;
             ce_percentage :=
               if positive (cb_total breakdown)
               then toFixed2 (Qmult (Qdiv (ce_cost stats) (cb_total breakdown)) (inject_Z 100))
               else 0%Q |}) <$> by_model breakdown;
     cb_total := total;
     avg_per_request :=
       if bool_decide (0 < length requests)
       then toFixed4 (Qdiv total (inject_Z (Z.of_nat (length requests))))
       else 0%Q |}.

(** The options of [getStats]: [None] is a property left out. *)
Record StatsOptions := mkStatsOptions {
  option_period : option string;
  option_model : option string
}.

Record Overview := mkOverview {
  ov_total_requests : nat;
  ov_successful_requests : nat;
  ov_failed_requests : nat;
  ov_success_rate : Q;
  ov_total_tokens : Z;
  ov_total_cost : Q;
  ov_avg_duration : Q;
  ov_period : string;
  ov_timestamp : Z
}.

Record Stats := mkStats {
  overview : Overview;
  stats_models : gmap string ModelStats;
  recent_requests : list Request;
  daily_usage : list DailyUsage;
  hourly_usage : list HourlyUsage;
  cost_breakdown : CostBreakdown
}.

(** The [cutoffDate] of a period other than ['all']. The month before
    [now] on the calendar is an argument, as the clock is. *)
Definition cutoffDate (period : string) (now monthAgo : Z) : Z :=
  if bool_decide (period = "today") then (dateKey now * msPerDay)%Z
  else if bool_decide (period = "week") then daysBefore now 7
  else if bool_decide (period = "month") then monthAgo
  else now.

(** [getStats(options = {})] *)
Definition getStats (options : StatsOptions) (now monthAgo : Z) (mc : t) : Stats :=
  let period := default "all" (option_period options) in
  let filteredRequests :=
    if bool_decide (period ≠ "all")
    then filter (λ r, (cutoffDate period now monthAgo ≤ timestamp r)%Z) (requests mc)
    else requests mc in
  let filteredRequests :=
    match truthy (option_model options) with
    | Some name => filter (λ r, model r = name) filteredRequests
    | None => filteredRequests
    end in
  let successful := length (filter (λ r, success r = true) filteredRequests) in
  {| overview :=
       {| ov_total_requests := length filteredRequests;
          ov_successful_requests := successful;
          ov_failed_requests := length (filter (λ r, success r ≠ true) filteredRequests);
          ov_success_rate :=
            if bool_decide (0 < length filteredRequests)
            then toFixed2 (Qmult (Qdiv (inject_Z (Z.of_nat successful))
                                       (inject_Z (Z.of_nat (length filteredRequests))))
                                 (inject_Z 100))
            else 0%Q;
          ov_total_tokens := foldl (λ sum r, (sum + tokens r)%Z) 0%Z filteredRequests;
          ov_total_cost := toFixed4 (foldl (λ sum r, Qplus sum (cost r)) 0%Q filteredRequests);
          ov_avg_duration :=
            if bool_decide (0 < length filteredRequests)
            then toFixed2 (Qdiv (inject_Z (foldl (λ sum r, (sum + duration r)%Z) 0%Z filteredRequests))
                                (inject_Z (Z.of_nat (length filteredRequests))))
            else 0%Q;
          ov_period := period;
          ov_timestamp := now |};
     stats_models := getModelStats filteredRequests;
     recent_requests := getRecentRequests 5 mc;
     daily_usage := getDailyUsage 7 now mc;
     hourly_usage := getHourlyUsage 24 now mc;
     cost_breakdown := getCostBreakdown filteredRequests |}.

(** ** Vocabulary of the agreement between the aggregates and the log *)

Definition sum_tokens (log : list Request) : Z := foldl (λ acc r, (acc + tokens r)%Z) 0%Z log.
Definition sum_cost (log : list Request) : Q := foldl (λ acc r, Qplus acc (cost r)) 0%Q log.





(** The totals are those of the log. *)
Definition totals_agree (mc : t) : Prop :=
  total_requests (totals mc) = length (requests mc)
  ∧ successful_requests (totals mc) = length (filter (λ r, success r = true) (requests mc))
  ∧ failed_requests (totals mc) = length (filter (λ r, success r ≠ true) (requests mc))
  ∧ total_tokens (totals mc) = sum_tokens (requests mc)
  ∧ total_cost (totals mc) = sum_cost (requests mc).



End MetricsCollector.

(* ===================================================================== *)
(** * ModelSelector *)
(* ===================================================================== *)

Module ModelSelector.

(** The arithmetic [calculateScore] uses, kept abstract so that the same
    text of the function can be read over IEEE doubles (what JavaScript
    runs) and over exact rationals. [falsy x] is the test behind [x || 1]. *)
Class Number (R : Type) := mkNumber {
  zero : R;
  one : R;
  add : R → R → R;
  mul : R → R → R;
  div : R → R → R;
  falsy : R → bool
}.

(** JavaScript numbers: binary64, [0], [-0] and [NaN] are falsy. *)
#[global] Instance float_Number : Number float :=
  {| zero := 0%float;
     one := 1%float;
     add := PrimFloat.add;
     mul := PrimFloat.mul;
     div := PrimFloat.div;
     falsy := λ x, PrimFloat.eqb x 0%float || negb (PrimFloat.eqb x x) |}.

(** Exact rationals in canonical form. *)
#[global] Instance Qc_Number : Number Qc :=
  {| zero := 0%Qc;
     one := 1%Qc;
     add := Qcplus;
     mul := Qcmult;
     div := Qcdiv;
     falsy := λ x, bool_decide (x = 0%Qc) |}.

Section Score.
Context {R : Type} `{Number R}.

(** A small non-negative integer as a number *)
Definition of_nat (n : nat) : R := Nat.iter n (λ x, add x one) zero.

(** [buildCapabilityMatrix()] *)
Definition capabilityRow (reasoning coding analysis math creative speed cost multimodal : nat)
  : gmap string R :=
  list_to_map
    [("reasoning", of_nat reasoning); ("coding", of_nat coding);
     ("analysis", of_nat analysis); ("math", of_nat math);
     ("creative", of_nat creative); ("speed", of_nat speed);
     ("cost", of_nat cost); ("multimodal", of_nat multimodal)].

Definition buildCapabilityMatrix : list (string * gmap string R) :=
  [("o3", capabilityRow 10 9 10 10 7 4 3 0);
   ("o3-pro", capabilityRow 10 10 10 10 8 2 1 0);
   ("o3-mini", capabilityRow 8 8 8 8 6 8 9 0);
   ("gemini-pro", capabilityRow 8 8 9 8 9 8 8 10);
   ("gemini-1.5-pro", capabilityRow 9 8 9 8 9 7 6 10);
   ("claude-3-5-sonnet", capabilityRow 9 9 9 8 9 7 6 0);
   ("gpt-4", capabilityRow 8 8 8 7 8 6 4 0);
   ("gpt-4-turbo", capabilityRow 8 8 8 7 8 7 5 8)].

(** [Object.values(queryAnalysis).reduce((a, b) => a + b, 0) || 1] *)
Definition totalWeight (queryAnalysis : list (string * R)) : R :=
  let sum := foldl add zero queryAnalysis.*2 in
  if falsy sum then one else sum.

(** [calculateScore(queryAnalysis, capabilities)]. [queryAnalysis] is
    the object as [Object.entries] lists it, in insertion order. *)
Definition calculateScore
    (queryAnalysis : list (string * R)) (capabilities : gmap string R) : R :=
  let totalWeight := totalWeight queryAnalysis in
  foldl
    (λ score entry,
       match capabilities !! entry.1 with
       | Some capability =>
           let normalizedWeight := div entry.2 totalWeight in
           add score (mul normalizedWeight capability)
       | None => score
       end)
    zero queryAnalysis.


End Score.


Section ScoreVocabulary.
Context {R : Type} `{Number R}.

(** The sum of [g] over the entries of a vector *)
Definition total (g : string * R → R) (entries : list (string * R)) : R :=
  foldr (λ entry acc, add (g entry) acc) zero entries.


End ScoreVocabulary.

(** ** Reading the query *)

(** Strings are sequences of bytes here. [toLowerCase] is modelled on the
    ASCII letters, which is what it does to ASCII text; the matching below
    concerns ASCII characters only. *)
Definition lower (c : Ascii.ascii) : Ascii.ascii :=
  let n := Ascii.nat_of_ascii c in
  if (65 <=? n) && (n <=? 90) then Ascii.ascii_of_nat (n + 32) else c.

Fixpoint toLowerCase (s : string) : string :=
  match s with
  | EmptyString => EmptyString
  | String c rest => String (lower c) (toLowerCase rest)
  end.

(** A word character of a regular expression, [[A-Za-z0-9_]] *)
Definition is_word (c : Ascii.ascii) : bool :=
  let n := Ascii.nat_of_ascii c in
  ((48 <=? n) && (n <=? 57)) || ((65 <=? n) && (n <=? 90)) || (n =? 95)
  || ((97 <=? n) && (n <=? 122)).

(** [\b] between two characters; [None] is an end of the text. *)
Definition boundary (before after : option Ascii.ascii) : bool :=
  xorb (from_option is_word false before) (from_option is_word false after).

Definition first_char (s : string) : option Ascii.ascii :=
  match s with
  | EmptyString => None
  | String c _ => Some c
  end.

(** The characters of [keyword] at the head of [text], letters compared
    without case (flag [i]): the last character matched ([before] when
    the keyword is empty) and the rest of the text. *)
Fixpoint literal (keyword text : string) (before : option Ascii.ascii)
  : option (option Ascii.ascii * string) :=
  match keyword with
  | EmptyString => Some (before, text)
  | String k keyword =>
      match text with
      | EmptyString => None
      | String c text =>
          if bool_decide (lower k = lower c) then literal keyword text (Some c) else None
      end
  end.

(** [\bkeyword\b] matches at the head of [text], which [before]
    precedes. *)
Definition word_here (keyword : string) (before : option Ascii.ascii) (text : string) : bool :=
  match literal keyword text before with
  | Some (last, rest) => boundary before (first_char text) && boundary last (first_char rest)
  | None => false
  end.

(** The number of matches of [/\bkeyword\b/gi] in [text], for a keyword
    that is not empty: the search goes from left to right and resumes
    where a match ended; [skip] counts the characters still to pass of the
    last match. *)
Fixpoint matches (keyword : string) (before : option Ascii.ascii) (skip : nat) (text : string)
  : nat :=
  match text with
  | EmptyString => 0
  | String c rest =>
      match skip with
      | S skip => matches keyword (Some c) skip rest
      | 0 =>
          if word_here keyword before text
          then S (matches keyword (Some c) (String.length keyword - 1) rest)
          else matches keyword (Some c) 0 rest
      end
  end.

(** [countKeywords(text, keywords)] *)
Definition countKeywords (text : string) (keywords : list string) : nat :=
  foldl (λ count keyword, count + matches keyword None 0 text) 0 keywords.

(** [/\b(w1|w2|...)\b/i.test(text)] *)
Fixpoint test_words (words : list string) (before : option Ascii.ascii) (text : string) : bool :=
  existsb (λ w, word_here w before text) words
  || match text with
     | EmptyString => false
     | String c rest => test_words words (Some c) rest
     end.

(** [/[...]/.test(text)] for a class of characters *)
Fixpoint test_class (class : Ascii.ascii → bool) (text : string) : bool :=
  match text with
  | EmptyString => false
  | String c rest => class c || test_class class rest
  end.

(** [[{}();]] *)
Definition code_char (c : Ascii.ascii) : bool :=
  bool_decide (Ascii.nat_of_ascii c ∈ [123; 125; 40; 41; 59]).

(** [[\d+\-*/=<>%]] *)
Definition math_char (c : Ascii.ascii) : bool :=
  let n := Ascii.nat_of_ascii c in
  ((48 <=? n) && (n <=? 57)) || bool_decide (n ∈ [43; 45; 42; 47; 61; 60; 62; 37]).

(** [analyzeQuery(query, context)]: the weights in the order of the
    object's keys. *)
Definition analyzeQuery (query context : string) : list (string * nat) :=
  let text := toLowerCase (query +:+ " " +:+ context) in
  let reasoning :=
    countKeywords text
      ["analyze"; "reasoning"; "logic"; "solve"; "complex"; "think"; "deduce"; "infer";
       "conclude"; "problem"; "strategy"; "approach"; "plan"; "why"; "how"; "explain";
       "understand"; "reason"; "because"] in
  let coding :=
    countKeywords text
      ["code"; "programming"; "function"; "algorithm"; "debug"; "implement";
       "javascript"; "python"; "typescript"; "react"; "api"; "database"; "git";
       "github"; "sql"; "html"; "css"; "json"; "xml"; "regex"; "framework"; "library";
       "package"; "module"; "class"; "method"] in
  let analysis :=
    countKeywords text
      ["analyze"; "examine"; "review"; "evaluate"; "assess"; "study"; "investigate";
       "research"; "data"; "statistics"; "metrics"; "compare"; "contrast"; "summarize";
       "findings"; "results"] in
  let math :=
    countKeywords text
      ["calculate"; "equation"; "formula"; "mathematics"; "algebra"; "statistics";
       "probability"; "number"; "compute"; "sum"; "average"; "percentage"; "ratio";
       "derivative"; "integral"] in
  let creative :=
    countKeywords text
      ["creative"; "write"; "story"; "poem"; "brainstorm"; "design"; "innovative";
       "generate"; "create"; "imagine"; "invent"; "artistic"; "novel"; "unique";
       "original"; "inspiration"] in
  let speed :=
    countKeywords text
      ["quick"; "fast"; "urgent"; "immediate"; "asap"; "hurry"; "rapid"; "swift";
       "prompt"; "briefly"; "short"] in
  let cost :=
    countKeywords text
      ["budget"; "cheap"; "cost"; "affordable"; "economical"; "inexpensive"; "free";
       "low-cost"; "minimal"] in
  let multimodal :=
    countKeywords text
      ["image"; "picture"; "photo"; "visual"; "diagram"; "chart"; "graph"; "figure";
       "illustration"; "video"; "audio"] in
  let reasoning :=
    if test_words ["what"; "why"; "how"; "when"; "where"; "which"; "explain"; "describe"]
         None text
    then reasoning + 2 else reasoning in
  let coding :=
    if test_class code_char query
       || test_words ["function"; "class"; "const"; "let"; "var"] None text
    then coding + 3 else coding in
  let math := if test_class math_char query then math + 1 else math in
  [("reasoning", reasoning); ("coding", coding); ("analysis", analysis); ("math", math);
   ("creative", creative); ("speed", speed); ("cost", cost); ("multimodal", multimodal)].

(** ** Choosing the model *)

(** What the selector reads of its configuration *)
Record Config := mkConfig {
  available_models : option (list string);
  default_model : option string
}.

Record Preferences := mkPreferences {
  model : option string;
  prioritize : option string
}.

(** [!this.config.available_models?.includes(modelId)] is false *)
Definition available (config : Config) (modelId : string) : bool :=
  match available_models config with
  | Some models => bool_decide (modelId ∈ models)
  | None => false
  end.

(** [queryAnalysis[aspect] = (queryAnalysis[aspect] || 0) * 2], for an
    [aspect] that is an axis or the name of no property at all: a new key
    goes to the end. *)
Fixpoint prioritized (aspect : string) (queryAnalysis : list (string * nat))
  : list (string * nat) :=
  match queryAnalysis with
  | [] => [(aspect, 0 * 2)]
  | (key, weight) :: rest =>
      if bool_decide (key = aspect) then (key, weight * 2) :: rest
      else (key, weight) :: prioritized aspect rest
  end.

(** The comparison [selectBestModel] makes and the score it starts
    from. *)
Class Ordered (R : Type) := mkOrdered {
  gtb : R → R → bool;
  minus_one : R
}.

#[global] Instance float_Ordered : Ordered float :=
  {| gtb := λ x y, PrimFloat.ltb y x;
     minus_one := PrimFloat.opp 1%float |}.

#[global] Instance Qc_Ordered : Ordered Qc :=
  {| gtb := λ x y, bool_decide (y < x)%Qc;
     minus_one := (- 1)%Qc |}.

Section Select.
Context {R : Type} `{Number R} `{Ordered R}.

(** The weights of the query as numbers, after [preferences.prioritize] *)
Definition queryWeights (query context : string) (preferences : Preferences)
  : list (string * R) :=
  let queryAnalysis := analyzeQuery query context in
  let queryAnalysis :=
    match truthy (prioritize preferences) with
    | Some aspect => prioritized aspect queryAnalysis
    | None => queryAnalysis
    end in
  (λ entry, (entry.1, of_nat entry.2)) <$> queryAnalysis.

(** The body of the loop of [selectBestModel]; [best] is
    [(bestScore, bestModel)]. *)
Definition consider (config : Config) (queryAnalysis : list (string * R))
    (best : R * string) (entry : string * gmap string R) : R * string :=
  if available config entry.1
  then
    let score := calculateScore queryAnalysis entry.2 in
    if gtb score best.1 then (score, entry.1) else best
  else best.

(** [selectBestModel(query, context = '', preferences = {})] *)
Definition selectBestModel (config : Config) (query context : string)
    (preferences : Preferences) : string :=
  match truthy (model preferences) with
  | Some preferred => preferred
  | None =>
      (foldl (consider config (queryWeights query context preferences))
         (minus_one, default "o3" (truthy (default_model config)))
         buildCapabilityMatrix).2
  end.

(** ** Vocabulary of the properties *)


End Select.

(** The laws of the comparison the choice relies on *)
Class StrictComparison (R : Type) `{Ordered R} : Prop := mkStrict {
  gtb_irrefl : ∀ x : R, gtb x x = false;
  gtb_trans : ∀ x y z : R, gtb x y = true → gtb y z = true → gtb x z = true
}.


End ModelSelector.

(* ===================================================================== *)
(** * ModelRouter *)
(* ===================================================================== *)

Module ModelRouter.

(** The properties of [args] the router reads. *)
Record Args := mkArgs {
  query : option string;
  context : option string;
  model : option string;
  client_id : option string;
  user_id : option string
}.

(** What an adapter resolves with. [total_tokens] stands for
    [result.usage?.total_tokens]. *)
Record QueryResult := mkResult {
  response : string;
  result_model : string;
  total_tokens : option Z;
  cost : option Q;
  duration : Z
}.

(** [adapter.call(args)] *)
Definition Adapter : Type := Args → outcome QueryResult.

(** The router: the one key of [config] it reads after construction, its
    selector ([selectBestModel] on the arguments of the request), its
    adapter map in insertion order, its limiter and its collector. *)
Record t := mkRouter {
  fallback_model : option string;
  selector : Args → outcome string;
  adapters : list (string * Adapter);
  rateLimiter : RateLimiter.t;
  metrics : MetricsCollector.t
}.

(** The clock readings of one [routeQuery]. *)
Record Clock := mkClock {
  startTime : Z;
  limiterNow : Z;
  endTime : Z;
  recordNow : Z
}.

(** [this.adapters.get(modelId)] *)
Fixpoint adapters_get (adapters : list (string * Adapter)) (modelId : string) : option Adapter :=
  match adapters with
  | [] => None
  | (id, adapter) :: rest => if bool_decide (id = modelId) then Some adapter else adapters_get rest modelId
  end.

(** [getClientIdentifier(args)] *)
Definition getClientIdentifier (args : Args) : string :=
  match truthy (client_id args) with
  | Some id => id
  | None => default "anonymous" (truthy (user_id args))
  end.

Definition fallbackCodes : list string :=
  ["MODEL_NOT_AVAILABLE"; "RATE_LIMIT_EXCEEDED"; "QUOTA_EXCEEDED"; "TIMEOUT"].

(** [fallbackCodes.includes(error.code)] *)
Definition codes_include (codes : list string) (c : option string) : bool :=
  match c with
  | Some c => bool_decide (c ∈ codes)
  | None => false
  end.

(** [shouldUseFallback(error)] *)
Definition shouldUseFallback (error : JsError) : bool :=
  codes_include fallbackCodes (code error) ||
  includes "not available" (message error) ||
  includes "rate limit" (message error) ||
  includes "quota" (message error).

Definition modelNotAvailable (modelId : string) (availableModels : list string) : JsError :=
  {| message := "Model not available: " +:+ modelId +:+ ". Available models: "
                +:+ join ", " availableModels;
     code := None;
     retryAfter := None |}.

(** [callModel(modelId, args)]. The first component of the result lists
    the model ids [callModel] was entered with, in order. The recursion of
    the source is on the fallback; [fuel] bounds its depth and [None] means
    the bound was reached. *)
Fixpoint callModel (fuel : nat) (r : t) (modelId : string) (args : Args)
  : option (list string * outcome QueryResult) :=
  match fuel with
  | 0 => None
  | S fuel =>
      match adapters_get (adapters r) modelId with
      | None => Some ([modelId], Throw (modelNotAvailable modelId (adapters r).*1))
      | Some adapter =>
          match adapter args with
          | Return result => Some ([modelId], Return result)
          | Throw error =>
              match (if shouldUseFallback error then truthy (fallback_model r) else None) with
              | Some fallback =>
                  if bool_decide (modelId ≠ fallback)
                  then '(calls, res) ← callModel fuel r fallback args;
                       Some (modelId :: calls, res)
                  else Some ([modelId], Throw error)
              | None => Some ([modelId], Throw error)
              end
          end
      end
  end.

(** [result?.usage?.total_tokens || 0] and [result?.cost || 0] *)
Definition tokens_or_0 (result : option QueryResult) : Z :=
  default 0%Z (result ≫= total_tokens).
Definition cost_or_0 (result : option QueryResult) : Q :=
  default 0%Q (result ≫= cost).

(** [recordMetrics(modelId, result, duration, success)]. [record] as
    modelled never throws, so the [catch] around it has nothing to do. *)
Definition recordMetrics (modelId : string) (result : option QueryResult)
    (duration : Z) (success : bool) (now : Z) (mc : MetricsCollector.t) : MetricsCollector.t :=
  MetricsCollector.record now
    {| MetricsCollector.metric_model := modelId;
       MetricsCollector.metric_tokens := Some (tokens_or_0 result);
       MetricsCollector.metric_cost := Some (cost_or_0 result);
       MetricsCollector.metric_duration := Some duration;
       MetricsCollector.metric_success := Some success;
       MetricsCollector.metric_timestamp := Some now |}
    mc.

(** What one [routeQuery] leaves behind. *)
Record Run := mkRun {
  router : t;
  called : list string;
  result : outcome QueryResult
}.

Definition with_state (r : t) (rl : RateLimiter.t) (mc : MetricsCollector.t) : t :=
  {| fallback_model := fallback_model r;
     selector := selector r;
     adapters := adapters r;
     rateLimiter := rl;
     metrics := mc |}.

(** The [catch] block of [routeQuery] *)
Definition routeQuery_catch (r : t) (args : Args) (clock : Clock)
    (rl : RateLimiter.t) (calls : list string) (error : JsError) : Run :=
  let duration := (endTime clock - startTime clock)%Z in
  {| router :=
       with_state r rl
         (recordMetrics (default "unknown" (truthy (model args))) None duration false
            (recordNow clock) (metrics r));
     called := calls;
     result := Throw error |}.

(** [routeQuery(args)] *)
Definition routeQuery (fuel : nat) (args : Args) (clock : Clock) (r : t) : option Run :=
  match RateLimiter.checkLimit (Some (getClientIdentifier args)) (limiterNow clock) (rateLimiter r) with
  | (rl, Throw error) => Some (routeQuery_catch r args clock rl [] error)
  | (rl, Return _) =>
      let selected :=
        match truthy (model args) with
        | Some m => Return m
        | None => selector r args
        end in
      match selected with
      | Throw error => Some (routeQuery_catch r args clock rl [] error)
      | Return modelId =>
          '(calls, res) ← callModel fuel r modelId args;
          match res with
          | Throw error => Some (routeQuery_catch r args clock rl calls error)
          | Return result =>
              let duration := (endTime clock - startTime clock)%Z in
              Some {| router :=
                        with_state r rl
                          (recordMetrics modelId (Some result) duration true
                             (recordNow clock) (metrics r));
                      called := calls;
                      result := Return result |}
          end
      end
  end.

(** ** Vocabulary of the properties *)

(** One attempt on a model with no fallback after it: the error for a
    missing adapter, or what the adapter gives. *)
Definition attempt (r : t) (modelId : string) (args : Args) : outcome QueryResult :=
  match adapters_get (adapters r) modelId with
  | None => Throw (modelNotAvailable modelId (adapters r).*1)
  | Some adapter => adapter args
  end.



(** The retry condition on the error in the words of the specification:
    three codes, or a message matching [/not available|rate limit|quota/]. *)
Definition specified_retryable (error : JsError) : bool :=
  codes_include ["RATE_LIMIT_EXCEEDED"; "QUOTA_EXCEEDED"; "TIMEOUT"] (code error) ||
  includes "not available" (message error) ||
  includes "rate limit" (message error) ||
  includes "quota" (message error).

(** A router over the given adapters with a new limiter and collector. *)
Definition start (fallback : option string) (selector : Args → outcome string)
    (adapters : list (string * Adapter)) : t :=
  {| fallback_model := fallback;
     selector := selector;
     adapters := adapters;
     rateLimiter := RateLimiter.new RateLimiter.no_config;
     metrics := MetricsCollector.new |}.

(** ** The adapter registry *)

(** What [initializeAdapters] reads of a model's configuration; the rest
    of it is for the adapter's constructor. *)
Record ModelConfig := mkModelConfig {
  enabled : option bool;
  provider : option string;
  model_name : option string;
  cost_per_1k_tokens : option Q
}.

(** The constructors of the three adapter classes. Each can throw (it
    does when its API key is not in the environment). *)
Record AdapterClasses := mkClasses {
  OpenAIAdapter : ModelConfig → outcome Adapter;
  GoogleAdapter : ModelConfig → outcome Adapter;
  AnthropicAdapter : ModelConfig → outcome Adapter
}.

(** [this.adapters.set(modelId, adapter)]: a key already in the map keeps
    its place and gets the new value, a new key goes to the end. *)
Fixpoint adapters_set (adapters : list (string * Adapter)) (modelId : string) (adapter : Adapter)
  : list (string * Adapter) :=
  match adapters with
  | [] => [(modelId, adapter)]
  | (id, a) :: rest =>
      if bool_decide (id = modelId) then (id, adapter) :: rest
      else (id, a) :: adapters_set rest modelId adapter
  end.

(** The [switch] on [modelConfig.provider]: [None] is the [default] case. *)
Definition construct (classes : AdapterClasses) (modelConfig : ModelConfig)
  : option (outcome Adapter) :=
  match provider modelConfig with
  | Some "openai" => Some (OpenAIAdapter classes modelConfig)
  | Some "google" => Some (GoogleAdapter classes modelConfig)
  | Some "anthropic" => Some (AnthropicAdapter classes modelConfig)
  | _ => None
  end.

(** One turn of the loop of [initializeAdapters]. *)
Definition initializeAdapter (classes : AdapterClasses)
    (adapters : list (string * Adapter)) (entry : string * ModelConfig)
  : list (string * Adapter) :=
  if bool_decide (enabled entry.2 = Some false) then adapters
  else
    match construct classes entry.2 with
    | None => adapters
    | Some (Throw _) => adapters
    | Some (Return adapter) => adapters_set adapters entry.1 adapter
    end.

(** [initializeAdapters()], on [Object.entries(this.config.models || {})]. *)
Definition initializeAdapters (classes : AdapterClasses) (models : list (string * ModelConfig))
  : list (string * Adapter) :=
  foldl (initializeAdapter classes) [] models.

(** The adapter [initializeAdapters] makes for an entry, if it makes one. *)
Definition adapter_of (classes : AdapterClasses) (modelConfig : ModelConfig) : option Adapter :=
  if bool_decide (enabled modelConfig = Some false) then None
  else
    match construct classes modelConfig with
    | Some (Return adapter) => Some adapter
    | _ => None
    end.

End ModelRouter.

(* ===================================================================== *)
(** * BaseAdapter *)
(* ===================================================================== *)

(** [adapters/base-adapter.js]. Token counts are integers and costs exact
    rationals, as in the collector. *)

Module BaseAdapter.

(** A line feed and a double quote, for the texts below. *)
Definition nl : string := String (Ascii.ascii_of_nat 10) EmptyString.
Definition dq : string := String (Ascii.ascii_of_nat 34) EmptyString.

(** What the methods below read of the adapter: three of the properties
    the constructor copies from [config] ([costPer1kTokens] is
    [config.cost_per_1k_tokens || 0]) and the timer, [None] for [null]. *)
Record t := mkAdapter {
  provider : option string;
  modelName : option string;
  costPer1kTokens : Q;
  startTime : option Z
}.

(** [constructor(config)] *)
Definition new (config : ModelRouter.ModelConfig) : t :=
  {| provider := ModelRouter.provider config;
     modelName := ModelRouter.model_name config;
     costPer1kTokens := default 0%Q (ModelRouter.cost_per_1k_tokens config);
     startTime := None |}.

(** A usage object, the vendor's or the formatted one: each property is a
    number or absent. *)
Record Usage := mkUsage {
  prompt_tokens : option Z;
  input_tokens : option Z;
  completion_tokens : option Z;
  output_tokens : option Z;
  total_tokens : option Z;
  reasoning_tokens : option Z
}.

(** [{}] *)
Definition no_usage : Usage := mkUsage None None None None None None.

(** [x || d] on numbers: [undefined] and [0] are falsy. *)
Definition or_num (x : option Z) (d : Z) : Z :=
  match x with
  | Some 0%Z | None => d
  | Some n => n
  end.

(** What [formatResponse] returns. *)
Record Response := mkResponse {
  response : string;
  model : option string;
  usage : Usage;
  cost : Q;
  duration : Z;
  timestamp : Z
}.

(** [calculateCost(usage)]. [usage] is an object here, so [!usage] is
    false. *)
Definition calculateCost (self : t) (usage : Usage) : Q :=
  if Qeq_bool (costPer1kTokens self) 0 then 0%Q
  else
    let totalTokens :=
      or_num (total_tokens usage)
        (or_num (input_tokens usage) (or_num (prompt_tokens usage) 0)
         + or_num (output_tokens usage) (or_num (completion_tokens usage) 0))%Z in
    Qmult (Qdiv (inject_Z totalTokens) (inject_Z 1000)) (costPer1kTokens self).

(** [formatResponse(response, usage = {}, model = null)], with the two
    readings of the clock the same. *)
Definition formatResponse (self : t) (now : Z) (response : string)
    (usage : option Usage) (model : option string) : Response :=
  let usage := default no_usage usage in
  let duration :=
    match startTime self with
    | Some 0%Z | None => 0%Z
    | Some started => (now - started)%Z
    end in
  {| response := response;
     model := match truthy model with Some m => Some m | None => modelName self end;
     usage :=
       {| prompt_tokens := None;
          input_tokens := Some (or_num (prompt_tokens usage) (or_num (input_tokens usage) 0));
          completion_tokens := None;
          output_tokens := Some (or_num (completion_tokens usage) (or_num (output_tokens usage) 0));
          total_tokens := Some (or_num (total_tokens usage) 0);
          reasoning_tokens := Some (or_num (reasoning_tokens usage) 0) |};
     cost := calculateCost self usage;
     duration := duration;
     timestamp := now |}.

(** [args[field]] *)
Definition args_get (args : ModelRouter.Args) (field : string) : option string :=
  if bool_decide (field = "query") then ModelRouter.query args
  else if bool_decide (field = "context") then ModelRouter.context args
  else if bool_decide (field = "model") then ModelRouter.model args
  else if bool_decide (field = "client_id") then ModelRouter.client_id args
  else if bool_decide (field = "user_id") then ModelRouter.user_id args
  else None.

(** [validateArgs(args, requiredFields)] *)
Fixpoint validateArgs (args : ModelRouter.Args) (requiredFields : list string) : outcome unit :=
  match requiredFields with
  | [] => Return tt
  | field :: rest =>
      match truthy (args_get args field) with
      | None => Throw (mkError ("Missing required field: " +:+ field) None None)
      | Some _ => validateArgs args rest
      end
  end.

(** What a vendor's client rejects with: an error of which the adapter
    reads [message], [status] and [statusCode]. *)
Record ApiError := mkApiError {
  api_message : option string;
  status : option Z;
  statusCode : option Z
}.

(** [error.message?.includes(phrase)] *)
Definition message_includes (phrase : string) (error : ApiError) : bool :=
  match api_message error with
  | Some m => includes phrase m
  | None => false
  end.

(** The tests of [createUserFriendlyError], in its order, on
    [status = error.status || error.statusCode] and
    [message = error.message || '']. *)
Definition apiKeyIssue (status : option Z) (message : string) : bool :=
  bool_decide (status = Some 401%Z) || includes "invalid_api_key" message
  || includes "Incorrect API key" message || includes "authentication" message.

Definition quotaIssue (message : string) : bool :=
  includes "insufficient_quota" message || includes "exceeded your current quota" message.

Definition rateLimitIssue (status : option Z) (message : string) : bool :=
  bool_decide (status = Some 429%Z) || includes "rate_limit_exceeded" message
  || includes "Rate limit" message.

Definition modelIssue (message : string) : bool :=
  includes "model_not_found" message || includes "does not exist" message.

Definition serviceIssue (message : string) : bool :=
  includes "service_unavailable" message || includes "temporarily overloaded" message
  || includes "502" message || includes "503" message.

Definition networkIssue (message : string) : bool :=
  includes "timeout" message || includes "ECONNRESET" message
  || includes "network" message || includes "ENOTFOUND" message.

Definition parameterIssue (message : string) : bool :=
  includes "Unsupported parameter" message.

(** [error.status || error.statusCode] *)
Definition status_of (error : ApiError) : option Z :=
  match status error with
  | Some 0%Z | None => statusCode error
  | Some s => Some s
  end.

(** [createUserFriendlyError(error)] *)
Definition createUserFriendlyError (error : ApiError) : string :=
  let message := default "" (api_message error) in
  let status := status_of error in
  if apiKeyIssue status message then
    "🔑 Invalid OpenAI API key. Please check your API key in the .env file:" +:+ nl +:+ nl +:+ "1. Make sure OPENAI_API_KEY is set correctly" +:+ nl +:+ "2. Verify your key at https://platform.openai.com/api-keys" +:+ nl +:+ "3. Restart Claude Code after updating the key"
  else if quotaIssue message then
    "💳 OpenAI API quota exceeded. Please:" +:+ nl +:+ nl +:+ "1. Check your usage at https://platform.openai.com/usage" +:+ nl +:+ "2. Add billing information if needed" +:+ nl +:+ "3. Wait for quota to reset or upgrade your plan"
  else if rateLimitIssue status message then
    "⏱️ Rate limit exceeded. Please wait a moment and try again." +:+ nl +:+ nl +:+ "O3 models have strict rate limits. Consider using " +:+ dq +:+ "medium" +:+ dq +:+ " or " +:+ dq +:+ "low" +:+ dq +:+ " reasoning level for faster requests."
  else if modelIssue message then
    "🤖 O3-Pro model not available. Please:" +:+ nl +:+ nl +:+ "1. Check if your OpenAI account has access to O3 models" +:+ nl +:+ "2. Verify you're using the latest API" +:+ nl +:+ "3. Contact OpenAI support if needed"
  else if serviceIssue message then
    "🔧 OpenAI service temporarily unavailable. This is usually temporary - please try again in a few minutes."
  else if networkIssue message then
    "🌐 Network connection issue. Please:" +:+ nl +:+ nl +:+ "1. Check your internet connection" +:+ nl +:+ "2. Try again in a moment" +:+ nl +:+ "3. If using a VPN, try without it"
  else if parameterIssue message then
    "⚙️ Invalid parameter for O3 model. This has been automatically handled - please try your request again."
  else
    "❌ DeepThink encountered an issue: " +:+ message +:+ nl +:+ nl +:+ "If this persists:" +:+ nl +:+ "1. Check your OpenAI API key and account status" +:+ nl +:+ "2. Try again in a few minutes" +:+ nl +:+ "3. Consider using a simpler query".

(** [handleError(error, context)] always throws; this is the error it
    throws, with the two properties of it the router reads. *)
Definition handleError (self : t) (error : ApiError) : JsError :=
  mkError (createUserFriendlyError error)
    (Some
       (if message_includes "rate limit" error then "RATE_LIMIT_EXCEEDED"
        else if message_includes "authentication" error || message_includes "unauthorized" error
        then "AUTHENTICATION_FAILED"
        else if message_includes "quota" error || message_includes "billing" error
        then "QUOTA_EXCEEDED"
        else if message_includes "timeout" error then "TIMEOUT"
        else "API_ERROR"))
    None.

(** [startTimer()] *)
Definition startTimer (now : Z) (self : t) : t :=
  {| provider := provider self;
     modelName := modelName self;
     costPer1kTokens := costPer1kTokens self;
     startTime := Some now |}.

(** [getElapsedTime()] *)
Definition getElapsedTime (now : Z) (self : t) : Z :=
  match startTime self with
  | Some 0%Z | None => 0%Z
  | Some started => (now - started)%Z
  end.

(** ** Vocabulary of the properties *)

(** The codes [handleError] can attach. *)
Definition errorCodes : list string :=
  ["RATE_LIMIT_EXCEEDED"; "AUTHENTICATION_FAILED"; "QUOTA_EXCEEDED"; "TIMEOUT"; "API_ERROR"].

(** The tokens [calculateCost] charges when the vendor gives no total. *)
Definition charged_tokens (usage : Usage) : Z :=
  (or_num (input_tokens usage) (or_num (prompt_tokens usage) 0)
   + or_num (output_tokens usage) (or_num (completion_tokens usage) 0))%Z.

End BaseAdapter.

(* ===================================================================== *)
(** * AnthropicAdapter *)
(* ===================================================================== *)

(** [adapters/anthropic-adapter.js]. The vendor's client is a function from
    the request to what [messages.create] settles with. *)

Module AnthropicAdapter.

(** A message of the request; [content] is [None] for [undefined]. *)
Record Message := mkMessage { role : string; content : option string }.

Record RequestParams := mkRequestParams {
  model : option string;
  messages : list Message;
  max_tokens : Z;
  temperature : Q
}.

(** An item of [completion.content] *)
Record Block := mkBlock { type : string; text : string }.

Record Completion := mkCompletion {
  completion_content : list Block;
  completion_usage : option BaseAdapter.Usage;
  completion_model : option string
}.

Inductive Settled : Type :=
| Resolved (completion : Completion)
| Rejected (error : BaseAdapter.ApiError).

(** [this.defaultParams] *)
Record DefaultParams := mkDefaultParams {
  default_temperature : Q;
  default_max_tokens : Z
}.

(** [config.default_params], spread over the two defaults. *)
Definition defaultParams_of (config_temperature : option Q) (config_max_tokens : option Z)
  : DefaultParams :=
  {| default_temperature := default (3 # 10)%Q config_temperature;
     default_max_tokens := default 4000%Z config_max_tokens |}.

Record t := mkAnthropic {
  base : BaseAdapter.t;
  defaultParams : DefaultParams;
  create : RequestParams → Settled
}.

(** The two properties of [args] that only the adapters read. *)
Record Options := mkOptions {
  args_max_tokens : option Z;
  args_temperature : option Q
}.

(** [buildMessages(args)] *)
Definition buildMessages (args : ModelRouter.Args) : list Message :=
  let userContent :=
    match truthy (ModelRouter.context args) with
    | Some context =>
        Some ("Context: " +:+ context +:+ BaseAdapter.nl +:+ BaseAdapter.nl +:+ "Query: "
              +:+ default "undefined" (ModelRouter.query args))
    | None => ModelRouter.query args
    end in
  [mkMessage "user" userContent].

(** The [requestParams] of [call] *)
Definition requestParams (self : t) (options : Options) (args : ModelRouter.Args) : RequestParams :=
  {| model := BaseAdapter.modelName (base self);
     messages := buildMessages args;
     max_tokens := BaseAdapter.or_num (args_max_tokens options) (default_max_tokens (defaultParams self));
     temperature := default (default_temperature (defaultParams self)) (args_temperature options) |}.

Definition with_base (self : t) (b : BaseAdapter.t) : t :=
  {| base := b; defaultParams := defaultParams self; create := create self |}.

(** [call(args)]: the timer is started at [started] and the response is
    formatted at [finished]. The adapter comes back as the call leaves
    it. *)
Definition call (self : t) (options : Options) (started finished : Z) (args : ModelRouter.Args)
  : t * outcome BaseAdapter.Response :=
  match BaseAdapter.validateArgs args ["query"] with
  | Throw error => (self, Throw error)
  | Return _ =>
      let self := with_base self (BaseAdapter.startTimer started (base self)) in
      match create self (requestParams self options args) with
      | Resolved completion =>
          let responseText :=
            join "" (text <$> filter (λ item, type item = "text") (completion_content completion)) in
          (self, Return (BaseAdapter.formatResponse (base self) finished responseText
                           (completion_usage completion) (completion_model completion)))
      | Rejected error => (self, Throw (BaseAdapter.handleError (base self) error))
      end
  end.

(** The result as the router reads it: [result.usage?.total_tokens],
    [result.cost] and [result.duration]. The router does not read
    [result.model]; an absent one is carried as the empty string. *)
Definition as_result (r : BaseAdapter.Response) : ModelRouter.QueryResult :=
  {| ModelRouter.response := BaseAdapter.response r;
     ModelRouter.result_model := default "" (BaseAdapter.model r);
     ModelRouter.total_tokens := BaseAdapter.total_tokens (BaseAdapter.usage r);
     ModelRouter.cost := Some (BaseAdapter.cost r);
     ModelRouter.duration := BaseAdapter.duration r |}.

(** The adapter as an entry of the router's map. *)
Definition adapter (self : t) (options : Options) (started finished : Z) : ModelRouter.Adapter :=
  λ args,
    match (call self options started finished args).2 with
    | Return r => Return (as_result r)
    | Throw error => Throw error
    end.

End AnthropicAdapter.

(* ===================================================================== *)
(** * O3ProService *)
(* ===================================================================== *)

(** [o3-service.js]: the service the server calls, one adapter behind the
    rate limiter and the collector. *)

Module O3ProService.

Record t := mkService {
  adapter : ModelRouter.Adapter;
  rateLimiter : RateLimiter.t;
  metrics : MetricsCollector.t
}.

(** [constructor(config, fileTools)], given the adapter it constructs and
    [config.rate_limits || {}]. *)
Definition new (adapter : ModelRouter.Adapter) (rate_limits : RateLimiter.Config) : t :=
  {| adapter := adapter;
     rateLimiter := RateLimiter.new rate_limits;
     metrics := MetricsCollector.new |}.

(** [getClientIdentifier(args)] *)
Definition getClientIdentifier (args : ModelRouter.Args) : string :=
  match truthy (ModelRouter.client_id args) with
  | Some id => id
  | None => default "anonymous" (truthy (ModelRouter.user_id args))
  end.

(** [callO3ProWithFunctions(args)]: the two properties it sets on [args]
    are the same at every call, so they are part of the adapter here; the
    [catch] throws the error on. *)
Definition callO3ProWithFunctions (service : t) (args : ModelRouter.Args)
  : outcome ModelRouter.QueryResult :=
  adapter service args.

(** [recordMetrics(result, duration, success)] *)
Definition recordMetrics (result : option ModelRouter.QueryResult)
    (duration : Z) (success : bool) (now : Z) (mc : MetricsCollector.t) : MetricsCollector.t :=
  MetricsCollector.record now
    {| MetricsCollector.metric_model := "o3-pro";
       MetricsCollector.metric_tokens := Some (default 0%Z (result ≫= ModelRouter.total_tokens));
       MetricsCollector.metric_cost := Some (default 0%Q (result ≫= ModelRouter.cost));
       MetricsCollector.metric_duration := Some duration;
       MetricsCollector.metric_success := Some success;
       MetricsCollector.metric_timestamp := Some now |}
    mc.

(** [query(args)]: the service as the call leaves it, and what the call
    settles with. *)
Definition query (args : ModelRouter.Args) (clock : ModelRouter.Clock) (service : t)
  : t * outcome ModelRouter.QueryResult :=
  let duration := (ModelRouter.endTime clock - ModelRouter.startTime clock)%Z in
  match RateLimiter.checkLimit (Some (getClientIdentifier args))
          (ModelRouter.limiterNow clock) (rateLimiter service) with
  | (rl, Throw error) =>
      ({| adapter := adapter service;
          rateLimiter := rl;
          metrics := recordMetrics None duration false (ModelRouter.recordNow clock)
                       (metrics service) |},
       Throw error)
  | (rl, Return _) =>
      match callO3ProWithFunctions service args with
      | Return result =>
          ({| adapter := adapter service;
              rateLimiter := rl;
              metrics := recordMetrics (Some result) duration true
                           (ModelRouter.recordNow clock) (metrics service) |},
           Return result)
      | Throw error =>
          ({| adapter := adapter service;
              rateLimiter := rl;
              metrics := recordMetrics None duration false (ModelRouter.recordNow clock)
                           (metrics service) |},
           Throw error)
      end
  end.

(** ** Vocabulary of the properties *)

(** A run of queries one after the other, with what each settled with. *)
Fixpoint query_all (queries : list (ModelRouter.Args * ModelRouter.Clock)) (service : t)
  : t * list (outcome ModelRouter.QueryResult) :=
  match queries with
  | [] => (service, [])
  | (args, clock) :: queries =>
      let '(service, settled) := query args clock service in
      let '(service, rest) := query_all queries service in
      (service, settled :: rest)
  end.

(** The log entry of a query that settled with [settled]. *)
Definition entry_of (clock : ModelRouter.Clock) (settled : outcome ModelRouter.QueryResult)
  : MetricsCollector.Request :=
  let result := match settled with Return result => Some result | Throw _ => None end in
  MetricsCollector.mkRequest "o3-pro"
    (default 0%Z (result ≫= ModelRouter.total_tokens))
    (default 0%Q (result ≫= ModelRouter.cost))
    (ModelRouter.endTime clock - ModelRouter.startTime clock)
    (negb (threw settled))
    (ModelRouter.recordNow clock).

End O3ProService.



(* ===================================================================== *)
(** * Properties of the rate limiter *)
(* ===================================================================== *)

Section RateLimiterFacts.
Import RateLimiter.

Lemma checkBurstLimit_window identifier now rl :
  checkBurstLimit identifier now rl =
  let '(d, ok) := windowCheck burstWindow (burst_limit (limits rl))
                    (burstUsage rl !! burstKey identifier) now in
  (set_burstUsage <[burstKey identifier := d]> rl,
   if ok then Return tt
   else Throw (burstError (ceil_seconds (resetTime d - now)))).
Proof.
  unfold checkBurstLimit, windowCheck, current.
  destruct (burstUsage rl !! burstKey identifier) as [d|]; simpl;
    repeat case_match; simplify_eq/=; try reflexivity; congruence.
Qed.

Lemma checkSustainedLimit_window identifier now rl :
  checkSustainedLimit identifier now rl =
  let '(d, ok) := windowCheck minuteWindow (requests_per_minute (limits rl))
                    (usage rl !! identifier) now in
  (set_usage <[identifier := d]> rl,
   if ok then Return tt
   else Throw (sustainedError (ceil_seconds (resetTime d - now)))).
Proof.
  unfold checkSustainedLimit, windowCheck, current.
  destruct (usage rl !! identifier) as [d|]; simpl;
    repeat case_match; simplify_eq/=; try reflexivity; congruence.
Qed.

Lemma windowCheck_admitted window limit entry now d :
  windowCheck window limit entry now = (d, true) →
  count (current entry now window) < limit
  ∧ d = mkWindow (S (count (current entry now window))) (resetTime (current entry now window)).
Proof.
  unfold windowCheck. case_match eqn:E; intros; simplify_eq.
  apply Nat.leb_gt in E. done.
Qed.

Lemma windowCheck_rejected window limit entry now d :
  windowCheck window limit entry now = (d, false) →
  limit ≤ count (current entry now window) ∧ d = current entry now window.
Proof.
  unfold windowCheck. case_match eqn:E; intros; simplify_eq.
  apply Nat.leb_le in E. done.
Qed.

(** The two checks keep to their own map. *)
Lemma checkBurstLimit_usage identifier now rl :
  usage (checkBurstLimit identifier now rl).1 = usage rl
  ∧ limits (checkBurstLimit identifier now rl).1 = limits rl.
Proof. rewrite checkBurstLimit_window. repeat case_match; done. Qed.

Lemma checkSustainedLimit_burstUsage identifier now rl :
  burstUsage (checkSustainedLimit identifier now rl).1 = burstUsage rl
  ∧ limits (checkSustainedLimit identifier now rl).1 = limits rl.
Proof. rewrite checkSustainedLimit_window. repeat case_match; done. Qed.

(** [getAllUsage] reports only keys of [usage] and hands the limiter back
    as it got it. *)
Lemma getAllUsage_fold now (l : list (string * UsageWindow)) rl (acc : gmap string Usage) :
  let step (acc : t * gmap string Usage) (kv : string * UsageWindow) :=
    if includes ":burst" kv.1 then acc
    else let '(rl', u) := getUsage kv.1 now acc.1 in (rl', <[kv.1 := u]> acc.2) in
  (foldl step (rl, acc) l).1 = rl
  ∧ ∀ k, k ∉ l.*1 → (foldl step (rl, acc) l).2 !! k = acc !! k.
Proof.
  intros step. revert acc. induction l as [|[k0 w] l IH]; intros acc; simpl.
  - done.
  - unfold step at 2 4. simpl. destruct (includes ":burst" k0).
    + destruct (IH acc) as [H1 H2]. split; [done|].
      intros k Hk. apply H2. intros Hin. apply Hk. by right.
    + destruct (IH (<[k0 := (getUsage k0 now rl).2]> acc)) as [H1 H2].
      split; [done|]. intros k Hk. rewrite H2.
      * apply lookup_insert_ne. intros ->. apply Hk. by left.
      * intros Hin. apply Hk. by right.
Qed.

Lemma getAllUsage_state now rl : (getAllUsage now rl).1 = rl.
Proof.
  unfold getAllUsage.
  pose proof (getAllUsage_fold now (map_to_list (usage rl)) rl ∅) as [H _].
  simpl in H. destruct (foldl _ _ _) as [rl' cs]. exact H.
Qed.

Lemma getAllUsage_unseen now rl identifier :
  usage rl !! identifier = None →
  clients (getAllUsage now rl).2 !! identifier = None.
Proof.
  intros Hnone. unfold getAllUsage.
  pose proof (getAllUsage_fold now (map_to_list (usage rl)) rl ∅) as [_ H].
  simpl in H. specialize (H identifier).
  destruct (foldl _ _ _) as [rl' cs]. simpl in *. rewrite H; [done|].
  intros Hin. apply list_elem_of_fmap in Hin as [[k w] [-> Hin]].
  apply elem_of_map_to_list in Hin. simpl in Hnone. congruence.
Qed.

(** C7. [getUsage] hands back the limiter it was called on, for every
    identifier: no map is written and no entry is created. For an
    identifier with no entry in either map the snapshot shows count 0 and
    the whole limit remaining in both windows, and a later [getAllUsage]
    has no client entry for it. *)
Theorem getUsage_is_read_only (rl : t) (identifier : string) (now later : Z) :
  (getUsage identifier now rl).1 = rl
  ∧ (usage rl !! identifier = None →
     burstUsage rl !! burstKey identifier = None →
     let snapshot := (getUsage identifier now rl).2 in
     wu_count (sustained snapshot) = 0
     ∧ wu_remaining (sustained snapshot) = Z.of_nat (requests_per_minute (limits rl))
     ∧ wu_limit (sustained snapshot) = requests_per_minute (limits rl)
     ∧ wu_count (burst snapshot) = 0
     ∧ wu_remaining (burst snapshot) = Z.of_nat (burst_limit (limits rl))
     ∧ wu_limit (burst snapshot) = burst_limit (limits rl)
     ∧ clients (getAllUsage later (getUsage identifier now rl).1).2 !! identifier = None).
Proof.
  split; [reflexivity|]. intros Hu Hb. simpl. rewrite Hu, Hb. simpl.
  repeat split; try lia. by apply getAllUsage_unseen.
Qed.

Lemma getUsage_is_read_only_witness :
  let rl := (checkLimit (Some "alice") 1000 (new no_config)).1 in
  (getUsage "bob" 2000 rl).1 = rl
  ∧ wu_count (sustained (getUsage "bob" 2000 rl).2) = 0
  ∧ wu_remaining (sustained (getUsage "bob" 2000 rl).2) = 50%Z
  ∧ wu_remaining (burst (getUsage "bob" 2000 rl).2) = 10%Z
  ∧ clients (getAllUsage 3000 (getUsage "bob" 2000 rl).1).2 !! "bob" = None.
Proof.
  intros rl.
  destruct (getUsage_is_read_only rl "bob" 2000 3000) as [H1 H2].
  destruct H2 as (? & ? & ? & ? & ? & ? & ?); [reflexivity | reflexivity |].
  repeat split; assumption.
Defined.

(** C9. When the burst window of an identifier has room and its
    sustained window is full, [checkLimit] throws the sustained-limit
    error and the limiter it leaves behind has the burst count raised by
    one: the rejected request has used burst quota. *)
Theorem sustained_rejection_consumes_burst (rl : t) (identifier : string) (now : Z) :
  let b := current (burstUsage rl !! burstKey identifier) now burstWindow in
  let s := current (usage rl !! identifier) now minuteWindow in
  count b < burst_limit (limits rl) →
  requests_per_minute (limits rl) ≤ count s →
  let '(rl', out) := checkLimit (Some identifier) now rl in
  out = Throw (sustainedError (ceil_seconds (resetTime s - now)))
  ∧ burstUsage rl' !! burstKey identifier = Some (mkWindow (S (count b)) (resetTime b))
  ∧ rl' ≠ rl.
Proof.
  intros b s Hb Hs. unfold checkLimit. simpl.
  rewrite checkBurstLimit_window.
  destruct (windowCheck burstWindow _ _ now) as [d ok] eqn:Eb.
  destruct ok.
  2:{ apply windowCheck_rejected in Eb as [Hle _]. fold b in Hle. lia. }
  apply windowCheck_admitted in Eb as [_ ->]. fold b.
  rewrite checkSustainedLimit_window. simpl.
  destruct (windowCheck minuteWindow _ _ now) as [d' ok'] eqn:Es.
  destruct ok'.
  { apply windowCheck_admitted in Es as [Hlt _]. fold s in Hlt. lia. }
  apply windowCheck_rejected in Es as [_ ->]. fold s. simpl.
  split; [reflexivity|]. split.
  - apply lookup_insert_eq.
  - intros Heq.
    apply (f_equal (λ r, burstUsage r !! burstKey identifier)) in Heq.
    simpl in Heq. rewrite lookup_insert_eq in Heq.
    subst b. destruct (burstUsage rl !! burstKey identifier) as [d|]; [|discriminate].
    injection Heq as Hd. unfold current in Hd.
    destruct (resetTime d <? now)%Z eqn:E.
    + simpl in Hd. subst d. simpl in E. unfold burstWindow in E. lia.
    + destruct d as [c R]. simpl in Hd. simplify_eq. lia.
Qed.

Lemma sustained_rejection_consumes_burst_witness :
  let rl := (checkLimit (Some "carol") 0 (new (mkConfig None None (Some 1)))).1 in
  let '(rl', out) := checkLimit (Some "carol") 1 rl in
  out = Throw (sustainedError 60)
  ∧ burstUsage rl' !! burstKey "carol" = Some (mkWindow 2 10000).
Proof.
  intros rl.
  assert (H1 : count (current (burstUsage rl !! burstKey "carol") 1 burstWindow)
               < burst_limit (limits rl)) by (vm_compute; lia).
  assert (H2 : requests_per_minute (limits rl)
               ≤ count (current (usage rl !! "carol") 1 minuteWindow)) by (vm_compute; lia).
  pose proof (sustained_rejection_consumes_burst rl "carol" 1 H1 H2) as H.
  destruct (checkLimit (Some "carol") 1 rl) as [rl' out].
  destruct H as (Hout & Hburst & _). split; [exact Hout | exact Hburst].
Defined.

Lemma checkLimit_unfold identifier now rl :
  let b := current (burstUsage rl !! burstKey identifier) now burstWindow in
  let s := current (usage rl !! identifier) now minuteWindow in
  checkLimit (Some identifier) now rl =
  if burst_limit (limits rl) <=? count b
  then (set_burstUsage <[burstKey identifier := b]> rl,
        Throw (burstError (ceil_seconds (resetTime b - now))))
  else if requests_per_minute (limits rl) <=? count s
  then (set_usage <[identifier := s]> (set_burstUsage <[burstKey identifier := counted b]> rl),
        Throw (sustainedError (ceil_seconds (resetTime s - now))))
  else (set_usage <[identifier := counted s]>
          (set_burstUsage <[burstKey identifier := counted b]> rl),
        Return tt).
Proof.
  intros b s. unfold checkLimit. simpl.
  rewrite checkBurstLimit_window. unfold windowCheck. fold b.
  destruct (burst_limit (limits rl) <=? count b); [reflexivity|].
  rewrite checkSustainedLimit_window. simpl. unfold windowCheck. fold s.
  destruct (requests_per_minute (limits rl) <=? count s); reflexivity.
Qed.

Lemma current_opened c R t window :
  (t ≤ R)%Z → current (Some (mkWindow c R)) t window = mkWindow c R.
Proof. intros. unfold current. simpl. case_match eqn:E; [lia|done]. Qed.

Lemma current_fresh entry t0 t window :
  opens entry t0 → (t0 ≤ t)%Z → current entry t window = mkWindow 0 (t + window).
Proof.
  unfold opens, current. destruct entry as [d|]; [|done].
  intros. case_match eqn:E; [done|lia].
Qed.

Lemma burst_not_sustained o : burst_rejected o → reached_sustained o = false.
Proof. intros [n ->]. reflexivity. Qed.

Lemma reached_sustained_error n :
  reached_sustained (Throw (sustainedError n)) = true.
Proof. reflexivity. Qed.

Lemma sustained_not_burst o : sustained_rejected o → ¬ burst_rejected o.
Proof. intros [n ->] [m Hm]. discriminate. Qed.

Lemma checkLimit_seq_cons identifier now times rl :
  checkLimit_seq identifier (now :: times) rl =
  ((checkLimit_seq identifier times (checkLimit (Some identifier) now rl).1).1,
   (checkLimit (Some identifier) now rl).2
     :: (checkLimit_seq identifier times (checkLimit (Some identifier) now rl).1).2).
Proof.
  simpl. destruct (checkLimit (Some identifier) now rl) as [rl1 o]. simpl.
  destruct (checkLimit_seq identifier times rl1); reflexivity.
Qed.

(** What one call does to the two windows of its identifier. *)
Lemma checkLimit_step identifier now rl :
  let b := current (burstUsage rl !! burstKey identifier) now burstWindow in
  let s := current (usage rl !! identifier) now minuteWindow in
  let rl' := (checkLimit (Some identifier) now rl).1 in
  let o := (checkLimit (Some identifier) now rl).2 in
  limits rl' = limits rl
  ∧ ((burst_limit (limits rl) ≤ count b
      ∧ burstUsage rl' !! burstKey identifier = Some b
      ∧ usage rl' = usage rl
      ∧ o = Throw (burstError (ceil_seconds (resetTime b - now))))
     ∨ (count b < burst_limit (limits rl)
        ∧ burstUsage rl' !! burstKey identifier = Some (counted b)
        ∧ ((requests_per_minute (limits rl) ≤ count s
            ∧ usage rl' !! identifier = Some s
            ∧ o = Throw (sustainedError (ceil_seconds (resetTime s - now))))
           ∨ (count s < requests_per_minute (limits rl)
              ∧ usage rl' !! identifier = Some (counted s)
              ∧ o = Return tt)))).
Proof.
  intros b s rl' o. subst rl' o. rewrite checkLimit_unfold. fold b s.
  destruct (burst_limit (limits rl) <=? count b) eqn:EN.
  - apply Nat.leb_le in EN. simpl. split; [done|]. left.
    split_and!; try done. apply lookup_insert_eq.
  - apply Nat.leb_gt in EN.
    destruct (requests_per_minute (limits rl) <=? count s) eqn:EM.
    + apply Nat.leb_le in EM. simpl. split; [done|]. right.
      split_and!; try done; [apply lookup_insert_eq|]. left.
      split_and!; try done. apply lookup_insert_eq.
    + apply Nat.leb_gt in EM. simpl. split; [done|]. right.
      split_and!; try done; [apply lookup_insert_eq|]. right.
      split_and!; try done. apply lookup_insert_eq.
Qed.

Lemma burst_run_opened identifier times : ∀ rl c R,
  burstUsage rl !! burstKey identifier = Some (mkWindow c R) →
  Forall (λ t, (t ≤ R)%Z) times →
  ∀ k o, (checkLimit_seq identifier times rl).2 !! k = Some o →
    if decide (c + k < burst_limit (limits rl))
    then ¬ burst_rejected o else burst_rejected o.
Proof.
  induction times as [|now times IH]; intros rl c R Hb Ht k o Hk; [done|].
  apply Forall_cons in Ht as [Hnow Ht].
  rewrite checkLimit_seq_cons in Hk; simpl in Hk.
  destruct (checkLimit_step identifier now rl) as [Hlimits Hcase].
  simpl in Hlimits, Hcase.
  rewrite Hb, current_opened in Hcase by done. unfold counted in Hcase. simpl in Hcase.
  destruct Hcase as [(HN & Hb' & _ & Ho) | (HN & Hb' & Hs)].
  - destruct k as [|k]; simpl in Hk.
    + simplify_eq. case_decide; [lia|]. rewrite Ho. by eexists.
    + eapply IH in Hk; [|exact Hb'|exact Ht]. rewrite Hlimits in Hk.
      repeat case_decide; try done; lia.
  - destruct k as [|k]; simpl in Hk.
    + simplify_eq. case_decide; [|lia].
      destruct Hs as [(_ & _ & Ho) | (_ & _ & Ho)]; rewrite Ho.
      * apply sustained_not_burst. by eexists.
      * intros [n Hn]. discriminate.
    + eapply IH in Hk; [|exact Hb'|exact Ht]. rewrite Hlimits in Hk.
      repeat case_decide; try done; lia.
Qed.

Lemma sustained_run_opened identifier times : ∀ rl c R,
  usage rl !! identifier = Some (mkWindow c R) →
  Forall (λ t, (t ≤ R)%Z) times →
  ∀ k o, filter (λ o, reached_sustained o) (checkLimit_seq identifier times rl).2 !! k = Some o →
    if decide (c + k < requests_per_minute (limits rl))
    then o = Return tt else sustained_rejected o.
Proof.
  induction times as [|now times IH]; intros rl c R Hs Ht k o Hk; [done|].
  apply Forall_cons in Ht as [Hnow Ht].
  rewrite checkLimit_seq_cons in Hk; simpl in Hk.
  destruct (checkLimit_step identifier now rl) as [Hlimits Hcase].
  simpl in Hlimits, Hcase.
  rewrite Hs in Hcase. rewrite (current_opened c R now minuteWindow) in Hcase by done.
  unfold counted in Hcase. simpl in Hcase. rewrite filter_cons in Hk.
  destruct Hcase as [(_ & _ & Hu & Ho) | (_ & _ & [(HM & Hs' & Ho) | (HM & Hs' & Ho)])];
    rewrite Ho in Hk.
  - rewrite decide_False in Hk by (simpl; auto).
    eapply IH in Hk; [|rewrite Hu; exact Hs|exact Ht]. by rewrite Hlimits in Hk.
  - rewrite decide_True in Hk by (rewrite reached_sustained_error; done).
    destruct k as [|k]; simpl in Hk.
    + simplify_eq. case_decide; [lia|]. by eexists.
    + eapply IH in Hk; [|exact Hs'|exact Ht]. rewrite Hlimits in Hk.
      repeat case_decide; try done; lia.
  - rewrite decide_True in Hk by (simpl; auto).
    destruct k as [|k]; simpl in Hk.
    + simplify_eq. case_decide; [done|lia].
    + eapply IH in Hk; [|exact Hs'|exact Ht]. rewrite Hlimits in Hk. simpl in Hk.
      repeat case_decide; try done; lia.
Qed.

Lemma sustained_run_fresh identifier t0 times : ∀ rl,
  opens (usage rl !! identifier) t0 →
  Forall (λ t, (t0 ≤ t ≤ t0 + minuteWindow)%Z) times →
  ∀ k o, filter (λ o, reached_sustained o) (checkLimit_seq identifier times rl).2 !! k = Some o →
    if decide (k < requests_per_minute (limits rl))
    then o = Return tt else sustained_rejected o.
Proof.
  induction times as [|now times IH]; intros rl Hs Ht k o Hk; [done|].
  apply Forall_cons in Ht as [Hnow Ht].
  assert (Hrest : Forall (λ t, (t ≤ now + minuteWindow)%Z) times).
  { eapply Forall_impl; [exact Ht|]. simpl. intros; lia. }
  rewrite checkLimit_seq_cons in Hk; simpl in Hk.
  destruct (checkLimit_step identifier now rl) as [Hlimits Hcase].
  simpl in Hlimits, Hcase.
  rewrite (current_fresh _ t0 now minuteWindow) in Hcase by (done || lia).
  unfold counted in Hcase. simpl in Hcase. rewrite filter_cons in Hk.
  destruct Hcase as [(_ & _ & Hu & Ho) | (_ & _ & [(HM & Hs' & Ho) | (HM & Hs' & Ho)])];
    rewrite Ho in Hk.
  - rewrite decide_False in Hk by (simpl; auto).
    eapply IH in Hk; [|rewrite Hu; exact Hs|exact Ht]. by rewrite Hlimits in Hk.
  - rewrite decide_True in Hk by (rewrite reached_sustained_error; done).
    destruct k as [|k]; simpl in Hk.
    + simplify_eq. case_decide; [lia|]. by eexists.
    + eapply sustained_run_opened in Hk; [|exact Hs'|exact Hrest].
      rewrite Hlimits in Hk. repeat case_decide; try done; lia.
  - rewrite decide_True in Hk by (simpl; auto).
    destruct k as [|k]; simpl in Hk.
    + simplify_eq. case_decide; [done|lia].
    + eapply sustained_run_opened in Hk; [|exact Hs'|exact Hrest].
      rewrite Hlimits in Hk. simpl in Hk. repeat case_decide; try done; lia.
Qed.

Lemma both_run_opened identifier times : ∀ rl c R,
  burstUsage rl !! burstKey identifier = Some (mkWindow c R) →
  Forall (λ t, (t ≤ R)%Z) times →
  (∀ d, usage rl !! identifier = Some d → count d ≤ c) →
  burst_limit (limits rl) ≤ requests_per_minute (limits rl) →
  ∀ k o, (checkLimit_seq identifier times rl).2 !! k = Some o →
    if decide (c + k < burst_limit (limits rl))
    then o = Return tt else burst_rejected o.
Proof.
  induction times as [|now times IH]; intros rl c R Hb Ht Hs HNM k o Hk; [done|].
  apply Forall_cons in Ht as [Hnow Ht].
  assert (Hcur : count (current (usage rl !! identifier) now minuteWindow) ≤ c).
  { unfold current. destruct (usage rl !! identifier) as [d|] eqn:E; simpl; [|lia].
    case_match; simpl; [lia|]. by apply Hs. }
  rewrite checkLimit_seq_cons in Hk; simpl in Hk.
  destruct (checkLimit_step identifier now rl) as [Hlimits Hcase].
  simpl in Hlimits, Hcase.
  rewrite Hb, current_opened in Hcase by done. unfold counted in Hcase. simpl in Hcase.
  destruct Hcase as [(HN & Hb' & Hu & Ho) | (HN & Hb' & [(HM & _) | (HM & Hs' & Ho)])].
  - destruct k as [|k]; simpl in Hk.
    + simplify_eq. case_decide; [lia|]. rewrite Ho. by eexists.
    + eapply IH in Hk; [|exact Hb'|exact Ht|by rewrite Hu|by rewrite Hlimits].
      rewrite Hlimits in Hk. repeat case_decide; try done; lia.
  - lia.
  - destruct k as [|k]; simpl in Hk.
    + simplify_eq. case_decide; [done|lia].
    + eapply IH in Hk; [|exact Hb'|exact Ht| |by rewrite Hlimits].
      * rewrite Hlimits in Hk. simpl in Hk. repeat case_decide; try done; lia.
      * intros d Hd. rewrite Hs' in Hd. simplify_eq. simpl. lia.
Qed.

(** C4, as the code has it. Each window limits the calls that reach its
    own check: every call to [checkLimit] reaches the burst check, and
    only a call the burst check let through reaches the sustained check.
    Within one window period, opened by the call at [t0]:
    - of the calls to [checkLimit], the first [burst_limit] are not
      rejected by the burst check and every later one is rejected with
      the burst error;
    - of the calls that reach the sustained check, the first
      [requests_per_minute] are admitted and every later one is rejected
      with the sustained error;
    - when both windows open at [t0] and the burst limit is not above the
      per-minute limit, the first [burst_limit] calls succeed and the next
      fails with the burst error (the specification's example);
    - after a call that the burst check let through the burst count is at
      most the burst limit, and after an admitted call the sustained count
      is at most the per-minute limit. *)
Theorem window_limits_per_check (rl : t) (identifier : string) (t0 : Z) (times : list Z) :
  let N := burst_limit (limits rl) in
  let M := requests_per_minute (limits rl) in
  let outcomes := (checkLimit_seq identifier (t0 :: times) rl).2 in
  (opens (burstUsage rl !! burstKey identifier) t0 →
   Forall (λ t, (t ≤ t0 + burstWindow)%Z) times →
   ∀ k o, outcomes !! k = Some o →
     if decide (k < N) then ¬ burst_rejected o else burst_rejected o)
  ∧ (opens (usage rl !! identifier) t0 →
     Forall (λ t, (t0 ≤ t ≤ t0 + minuteWindow)%Z) times →
     ∀ k o, filter (λ o, reached_sustained o) outcomes !! k = Some o →
       if decide (k < M) then o = Return tt else sustained_rejected o)
  ∧ (opens (burstUsage rl !! burstKey identifier) t0 →
     opens (usage rl !! identifier) t0 →
     N ≤ M →
     Forall (λ t, (t ≤ t0 + burstWindow)%Z) times →
     ∀ k o, outcomes !! k = Some o →
       if decide (k < N) then o = Return tt else burst_rejected o)
  ∧ (∀ now,
       let '(rl', o) := checkLimit (Some identifier) now rl in
       (¬ burst_rejected o →
        ∃ b, burstUsage rl' !! burstKey identifier = Some b ∧ count b ≤ N)
       ∧ (o = Return tt →
          ∃ s, usage rl' !! identifier = Some s ∧ count s ≤ M)).
Proof.
  intros N M outcomes. subst N M outcomes. split_and!.
  - intros Hopen Ht k o Hk.
    rewrite checkLimit_seq_cons in Hk; simpl in Hk.
    destruct (checkLimit_step identifier t0 rl) as [Hlimits Hcase].
    simpl in Hlimits, Hcase.
    rewrite (current_fresh _ t0 t0 burstWindow) in Hcase by (done || lia).
    unfold counted in Hcase. simpl in Hcase.
    destruct Hcase as [(HN & Hb' & _ & Ho) | (HN & Hb' & Hs)].
    + destruct k as [|k]; simpl in Hk.
      * simplify_eq. case_decide; [lia|]. rewrite Ho. by eexists.
      * eapply burst_run_opened in Hk; [|exact Hb'|exact Ht]. rewrite Hlimits in Hk.
        repeat case_decide; try done; lia.
    + destruct k as [|k]; simpl in Hk.
      * simplify_eq. case_decide; [|lia].
        destruct Hs as [(_ & _ & Ho) | (_ & _ & Ho)]; rewrite Ho.
        -- apply sustained_not_burst. by eexists.
        -- intros [n Hn]. discriminate.
      * eapply burst_run_opened in Hk; [|exact Hb'|exact Ht]. rewrite Hlimits in Hk.
        simpl in Hk. repeat case_decide; try done; lia.
  - intros Hopen Ht k o Hk.
    eapply (sustained_run_fresh identifier t0 (t0 :: times)) in Hk; [exact Hk|exact Hopen|].
    apply Forall_cons. split; [unfold minuteWindow; lia|exact Ht].
  - intros Hob Hos HNM Ht k o Hk.
    rewrite checkLimit_seq_cons in Hk; simpl in Hk.
    destruct (checkLimit_step identifier t0 rl) as [Hlimits Hcase].
    simpl in Hlimits, Hcase.
    rewrite (current_fresh _ t0 t0 burstWindow) in Hcase by (done || lia).
    rewrite (current_fresh _ t0 t0 minuteWindow) in Hcase by (done || lia).
    unfold counted in Hcase. simpl in Hcase.
    destruct Hcase as [(HN & Hb' & Hu & Ho) | (HN & Hb' & [(HM & _) | (HM & Hs' & Ho)])].
    + destruct k as [|k]; simpl in Hk.
      * simplify_eq. case_decide; [lia|]. rewrite Ho. by eexists.
      * eapply burst_run_opened in Hk; [|exact Hb'|exact Ht]. rewrite Hlimits in Hk.
        repeat case_decide; try done; lia.
    + lia.
    + destruct k as [|k]; simpl in Hk.
      * simplify_eq. case_decide; [done|lia].
      * eapply both_run_opened in Hk; [|exact Hb'|exact Ht| |by rewrite Hlimits].
        -- rewrite Hlimits in Hk. simpl in Hk. repeat case_decide; try done; lia.
        -- intros d Hd. rewrite Hs' in Hd. simplify_eq. simpl. lia.
  - intros now.
    destruct (checkLimit_step identifier now rl) as [_ Hcase]. simpl in Hcase.
    destruct (checkLimit (Some identifier) now rl) as [rl' o]. simpl in Hcase.
    destruct Hcase as [(_ & _ & _ & Ho) | (HN & Hb' & [(_ & _ & Ho) | (HM & Hs' & _)])].
    + split; [intros Hnb; destruct Hnb; by eexists | by rewrite Ho].
    + split; [|by rewrite Ho]. intros _. eexists. split; [exact Hb'|]. simpl. lia.
    + split; intros _; eexists; (split; [eassumption|]); simpl; lia.
Qed.

Lemma window_limits_per_check_witness :
  let outcomes := (checkLimit_seq "dave" (0%Z :: replicate 10 5%Z) (new no_config)).2 in
  ∃ o10 o11,
    outcomes !! 9 = Some o10 ∧ outcomes !! 10 = Some o11
    ∧ o10 = Return tt ∧ burst_rejected o11.
Proof.
  intros outcomes.
  destruct (window_limits_per_check (new no_config) "dave" 0 (replicate 10 5%Z))
    as (_ & _ & H & _).
  assert (Hwin : Forall (λ t, (t ≤ 0 + burstWindow)%Z) (replicate 10 5%Z)).
  { apply Forall_replicate. unfold burstWindow. lia. }
  specialize (H I I ltac:(simpl; lia) Hwin).
  exists (Return tt), (Throw (burstError 10)).
  assert (H10 : outcomes !! 9 = Some (Return tt)) by (vm_compute; reflexivity).
  assert (H11 : outcomes !! 10 = Some (Throw (burstError 10))) by (vm_compute; reflexivity).
  split_and!; [exact H10 | exact H11 | exact (H 9 _ H10) | exact (H 10 _ H11)].
Defined.

(** C4 as stated fails when the other window is the one that rejects.
    With the default limits (10 per burst window, 50 per minute), 50 calls
    at one instant for a new identifier: the 50th call within the
    sustained window does not succeed, it is rejected by the burst
    check, as the 11th already was. *)
Lemma fiftieth_call_is_burst_rejected :
  let rl := new no_config in
  let outcomes := (checkLimit_seq "anonymous" (replicate 50 0%Z) rl).2 in
  requests_per_minute (limits rl) = 50
  ∧ usage rl !! "anonymous" = None
  ∧ outcomes !! 9 = Some (Return tt)
  ∧ outcomes !! 10 = Some (Throw (burstError 10))
  ∧ outcomes !! 49 = Some (Throw (burstError 10))
  ∧ outcomes !! 49 ≠ Some (Return tt).
Proof. vm_compute. split_and!; try reflexivity. discriminate. Qed.

End RateLimiterFacts.

(* ===================================================================== *)
(** * Properties of the metrics collector *)
(* ===================================================================== *)

Section MetricsFacts.
Import MetricsCollector.











End MetricsFacts.

(* ===================================================================== *)
(** * Properties of the scoring function *)
(* ===================================================================== *)

Section SelectorFacts.
Import ModelSelector.


Section Exact.
Context {R : Type} `{ExactNumber R}.







End Exact.



End SelectorFacts.

(* ===================================================================== *)
(** * Properties of the router *)
(* ===================================================================== *)

Section RouterFacts.
Import ModelRouter.

(** ** Substrings *)

Lemma prefix_empty (s : string) : String.prefix "" s = true.
Proof. destruct s; reflexivity. Qed.

Lemma prefix_append_r (n s1 s2 : string) :
  String.prefix n s1 = true → String.prefix n (s1 +:+ s2) = true.
Proof.
  revert s1. induction n as [|a n IH]; intros s1 Hp; [apply prefix_empty|].
  destruct s1 as [|b s1]; simpl in *; [done|].
  destruct (Ascii.ascii_dec a b); [by apply IH|done].
Qed.

Lemma prefix_self (n : string) : String.prefix n n = true.
Proof.
  induction n as [|a n IH]; simpl; [done|].
  destruct (Ascii.ascii_dec a a); [exact IH|done].
Qed.

Lemma includes_self (n : string) : includes n n = true.
Proof.
  destruct n as [|a n]; [reflexivity|].
  unfold includes; fold includes. by rewrite prefix_self.
Qed.

Lemma includes_append_l (n s1 s2 : string) :
  includes n s1 = true → includes n (s1 +:+ s2) = true.
Proof.
  induction s1 as [|b s1 IH].
  - destruct n as [|a n]; simpl; [|done]. intros _.
    destruct s2; reflexivity.
  - unfold includes; fold includes. intros [Hp|Hi]%orb_true_iff.
    + change (String b s1 +:+ s2) with (String b (s1 +:+ s2)).
      unfold includes; fold includes. apply orb_true_iff. left.
      apply (prefix_append_r n (String b s1) s2 Hp).
    + change (String b s1 +:+ s2) with (String b (s1 +:+ s2)).
      unfold includes; fold includes. apply orb_true_iff. right. by apply IH.
Qed.

Lemma includes_append_r (n s1 s2 : string) :
  includes n s2 = true → includes n (s1 +:+ s2) = true.
Proof.
  intros Hi. induction s1 as [|b s1 IH]; [exact Hi|].
  change (String b s1 +:+ s2) with (String b (s1 +:+ s2)).
  unfold includes; fold includes. apply orb_true_iff. right. exact IH.
Qed.

Lemma includes_join (sep id : string) (ids : list string) :
  id ∈ ids → includes id (join sep ids) = true.
Proof.
  induction ids as [|x ids IH]; intros Hin; [by apply not_elem_of_nil in Hin|].
  apply elem_of_cons in Hin as [->|Hin].
  - destruct ids; simpl; [apply includes_self|].
    apply includes_append_l, includes_self.
  - specialize (IH Hin). destruct ids as [|y ids]; [by apply not_elem_of_nil in Hin|].
    change (join sep (x :: y :: ids)) with (x +:+ sep +:+ join sep (y :: ids)).
    by do 2 apply includes_append_r.
Qed.

(** ** [callModel] *)


(** The fallback itself is attempted once and never falls back again. *)
Lemma callModel_on_fallback fuel r fallback args :
  truthy (fallback_model r) = Some fallback →
  callModel (S fuel) r fallback args = Some ([fallback], attempt r fallback args).
Proof.
  intros Hfb. unfold attempt. simpl.
  destruct (adapters_get (adapters r) fallback) as [adapter|]; [|done].
  destruct (adapter args) as [res|error]; [done|].
  destruct (shouldUseFallback error); [|done].
  rewrite Hfb. rewrite bool_decide_eq_false_2 by (intros Hne; by apply Hne). done.
Qed.

(** With fuel for two calls [callModel] always returns, and this is what
    it returns. *)
Lemma callModel_unfold fuel r modelId args :
  callModel (S (S fuel)) r modelId args =
  Some
    match adapters_get (adapters r) modelId with
    | None => ([modelId], Throw (modelNotAvailable modelId (adapters r).*1))
    | Some adapter =>
        match adapter args with
        | Return res => ([modelId], Return res)
        | Throw error =>
            match (if shouldUseFallback error then truthy (fallback_model r) else None) with
            | Some fallback =>
                if bool_decide (modelId ≠ fallback)
                then ([modelId; fallback], attempt r fallback args)
                else ([modelId], Throw error)
            | None => ([modelId], Throw error)
            end
        end
    end.
Proof.
  change (callModel (S (S fuel)) r modelId args) with
    (match adapters_get (adapters r) modelId with
     | None => Some ([modelId], Throw (modelNotAvailable modelId (adapters r).*1))
     | Some adapter =>
         match adapter args with
         | Return res => Some ([modelId], Return res)
         | Throw error =>
             match (if shouldUseFallback error then truthy (fallback_model r) else None) with
             | Some fallback =>
                 if bool_decide (modelId ≠ fallback)
                 then '(calls, res) ← callModel (S fuel) r fallback args;
                      Some (modelId :: calls, res)
                 else Some ([modelId], Throw error)
             | None => Some ([modelId], Throw error)
             end
         end
     end).
  destruct (adapters_get (adapters r) modelId) as [adapter|]; [|done].
  destruct (adapter args) as [res|error]; [done|].
  destruct (shouldUseFallback error) eqn:Hs; [|done].
  destruct (truthy (fallback_model r)) as [fallback|] eqn:Hfb; [|done].
  case_bool_decide; [|done].
  by rewrite (callModel_on_fallback fuel r fallback args Hfb).
Qed.




Lemma adapters_get_None (adapters : list (string * Adapter)) (modelId : string) :
  adapters_get adapters modelId = None ↔ modelId ∉ adapters.*1.
Proof.
  induction adapters as [|[id a] l IH]; simpl.
  - split; [intros _; apply not_elem_of_nil | done].
  - rewrite not_elem_of_cons. case_bool_decide as Heq; simpl.
    + split; [done | intros [Hne _]; congruence].
    + rewrite IH. split; [intros ?; split; [congruence|done] | tauto].
Qed.

(** C3. A model id with no adapter makes [callModel] throw the
    model-not-available error right away: the only model entered is the
    requested one, whatever the fallback configuration. The message names
    the requested id and contains every id of the adapter map. When the id
    was given in [args.model] and the rate limiter admits the request,
    [routeQuery] throws this same error, having entered no other model. *)
Theorem unknown_model_is_terminal
    (fuel : nat) (r : t) (args : Args) (clock : Clock) (modelId : string) :
  adapters_get (adapters r) modelId = None →
  let error := modelNotAvailable modelId (adapters r).*1 in
  callModel (S fuel) r modelId args = Some ([modelId], Throw error)
  ∧ message error
    = "Model not available: " +:+ modelId +:+ ". Available models: "
      +:+ join ", " (adapters r).*1
  ∧ (∀ id, id ∈ (adapters r).*1 → includes id (message error) = true)
  ∧ (truthy (model args) = Some modelId →
     ∀ rl, RateLimiter.checkLimit (Some (getClientIdentifier args)) (limiterNow clock)
             (rateLimiter r) = (rl, Return tt) →
     ∃ run, routeQuery (S fuel) args clock r = Some run
            ∧ result run = Throw error
            ∧ called run = [modelId]).
Proof.
  intros Hget error. split_and!.
  - simpl. by rewrite Hget.
  - reflexivity.
  - intros id Hin.
    change (includes id ("Model not available: " +:+ modelId +:+ ". Available models: "
                         +:+ join ", " (adapters r).*1) = true).
    do 3 apply includes_append_r. by apply includes_join.
  - intros Hmodel rl Hrl. unfold routeQuery. rewrite Hrl, Hmodel.
    simpl. rewrite Hget. simpl. eexists. split; [reflexivity|]. done.
Qed.

Lemma unknown_model_is_terminal_witness :
  let answer := mkResult "ok" "M2" (Some 120%Z) (Some (3 # 250)%Q) 40 in
  let r := start (Some "M2") (λ _, Return "M1")
             [("M1", λ _, Return answer); ("M2", λ _, Return answer)] in
  let args := mkArgs (Some "x") None (Some "nonexistent") None None in
  ∃ run, routeQuery 1 args (mkClock 0 1 2 3) r = Some run
         ∧ result run
           = Throw (mkError "Model not available: nonexistent. Available models: M1, M2"
                      None None)
         ∧ called run = ["nonexistent"].
Proof.
  intros answer r args.
  destruct (unknown_model_is_terminal 0 r args (mkClock 0 1 2 3) "nonexistent" eq_refl)
    as (_ & _ & _ & Hroute).
  destruct (Hroute eq_refl _ eq_refl) as (run & Hrun & Hres & Hcalled).
  exists run. split_and!; [exact Hrun | exact Hres | exact Hcalled].
Defined.

(** ** [routeQuery] *)

(** With fuel for two calls [routeQuery] always returns, and it appends
    exactly one entry to the request log, marked as a success exactly when
    a result is returned. *)
Lemma routeQuery_records_once (fuel : nat) (r : t) (args : Args) (clock : Clock) :
  ∃ run entry,
    routeQuery (S (S fuel)) args clock r = Some run
    ∧ MetricsCollector.requests (metrics (router run))
      = MetricsCollector.requests (metrics r) ++ [entry]
    ∧ MetricsCollector.success entry = negb (threw (result run))
    ∧ (threw (result run) = true →
       entry = MetricsCollector.mkRequest (default "unknown" (truthy (model args))) 0 0
                 (endTime clock - startTime clock) false (recordNow clock)).
Proof.
  unfold routeQuery.
  destruct (RateLimiter.checkLimit _ _ _) as [rl [[]|error]].
  2:{ eexists _, _. split; [reflexivity|]. simpl. done. }
  destruct (match truthy (model args) with
            | Some m => Return m
            | None => selector r args
            end) as [modelId|error].
  2:{ eexists _, _. split; [reflexivity|]. simpl. done. }
  rewrite callModel_unfold. simpl.
  match goal with
  | |- context [match ?x with (calls, res) => _ end] => destruct x as [calls [res|error]]
  end.
  - eexists _, _. split; [reflexivity|]. simpl. done.
  - eexists _, _. split; [reflexivity|]. simpl. done.
Qed.

(** C10. A [routeQuery] without [args.model] that throws, whether the
    rate limiter, the selector or the adapter call threw, leaves exactly
    one new log entry, and that entry has model ['unknown'], 0 tokens,
    cost 0 and [success] false. The automatically selected model id is not
    recorded. *)
Theorem failure_without_model_is_unknown
    (fuel : nat) (r : t) (args : Args) (clock : Clock) :
  truthy (model args) = None →
  ∃ run,
    routeQuery (S (S fuel)) args clock r = Some run
    ∧ ∀ error, result run = Throw error →
        MetricsCollector.requests (metrics (router run))
        = MetricsCollector.requests (metrics r)
          ++ [MetricsCollector.mkRequest "unknown" 0 0
                (endTime clock - startTime clock) false (recordNow clock)].
Proof.
  intros Hmodel.
  destruct (routeQuery_records_once fuel r args clock) as (run & entry & Hrun & Hlog & _ & Hfail).
  exists run. split; [exact Hrun|]. intros error Hres.
  rewrite Hlog, Hfail by (by rewrite Hres). by rewrite Hmodel.
Qed.

Lemma failure_without_model_is_unknown_witness :
  let r := start None (λ _, Return "o3")
             [("o3", λ _, Throw (mkError "upstream failed" (Some "API_ERROR") None))] in
  let args := mkArgs (Some "why is the sky blue") None None None None in
  ∃ run,
    routeQuery 2 args (mkClock 100 101 350 351) r = Some run
    ∧ called run = ["o3"]
    ∧ result run = Throw (mkError "upstream failed" (Some "API_ERROR") None)
    ∧ MetricsCollector.requests (metrics (router run))
      = [MetricsCollector.mkRequest "unknown" 0 0 250 false 351].
Proof.
  intros r args.
  destruct (failure_without_model_is_unknown 0 r args (mkClock 100 101 350 351) eq_refl)
    as (run & Hrun & Hlog).
  exists run. split; [exact Hrun|].
  assert (Hrun' : routeQuery 2 args (mkClock 100 101 350 351) r = Some run) by exact Hrun.
  vm_compute in Hrun'. injection Hrun' as <-.
  split; [reflexivity|]. split; [reflexivity|].
  exact (Hlog _ eq_refl).
Defined.

(** The other two ways to fail: a rejection by the rate limiter (here a
    burst limit of 0) and a selector that throws. *)
Example rejected_and_unselected_are_unknown :
  let r := start None (λ _, Throw (mkError "Cannot read properties of null" None None)) [] in
  let closed :=
    {| fallback_model := None;
       selector := λ _, Return "o3";
       adapters := [];
       rateLimiter := RateLimiter.new (RateLimiter.mkConfig None (Some 0) None);
       metrics := MetricsCollector.new |} in
  let args := mkArgs (Some "why") None None None None in
  let clock := mkClock 100 101 350 351 in
  (MetricsCollector.requests ∘ metrics ∘ router) <$> routeQuery 2 args clock r
  = Some [MetricsCollector.mkRequest "unknown" 0 0 250 false 351]
  ∧ (MetricsCollector.requests ∘ metrics ∘ router) <$> routeQuery 2 args clock closed
    = Some [MetricsCollector.mkRequest "unknown" 0 0 250 false 351]
  ∧ result <$> routeQuery 2 args clock closed
    = Some (Throw (RateLimiter.burstError 10)).
Proof. split_and!; vm_compute; reflexivity. Qed.

(** C1 at the scenario of the specification: the fallback is M2, the
    adapter of M1 throws an error whose message contains 'rate limit', and
    [routeQuery] is called with model 'M1'. The call returns the result of
    M2 and adds one log entry, but that entry, with the tokens and the cost
    of M2's answer, is recorded under the model 'M1', and the per-model
    aggregate of 'M2' stays empty. *)
Lemma fallback_success_is_recorded_as_requested_model :
  let answer := mkResult "ok" "M2" (Some 120%Z) (Some (3 # 250)%Q) 40 in
  let r := start (Some "M2") (λ _, Return "M1")
             [("M1", λ _, Throw (mkError "rate limit reached" None None));
              ("M2", λ _, Return answer)] in
  let args := mkArgs (Some "x") None (Some "M1") None None in
  ∃ run,
    routeQuery 2 args (mkClock 100 101 350 351) r = Some run
    ∧ result run = Return answer
    ∧ result_model answer = "M2"
    ∧ called run = ["M1"; "M2"]
    ∧ MetricsCollector.requests (metrics (router run))
      = [MetricsCollector.mkRequest "M1" 120 (3 # 250)%Q 250 true 351]
    ∧ MetricsCollector.models (metrics (router run)) !! "M2" = None.
Proof.
  intros answer r args. eexists. split; [vm_compute; reflexivity|].
  split_and!; reflexivity.
Qed.

End RouterFacts.

(* ===================================================================== *)
(** * The rate limiter across clients and over time *)
(* ===================================================================== *)

Section RateLimiterMore.
Import RateLimiter.

Lemma append_length (s1 s2 : string) :
  String.length (s1 +:+ s2) = String.length s1 + String.length s2.
Proof. induction s1 as [|a s1 IH]; simpl; [done|]. by rewrite IH. Qed.

Lemma append_cancel_r (s1 s2 suffix : string) :
  s1 +:+ suffix = s2 +:+ suffix → s1 = s2.
Proof.
  revert s2. induction s1 as [|a s1 IH]; intros [|b s2] Heq; simpl in Heq.
  - done.
  - apply (f_equal String.length) in Heq. rewrite !append_length in Heq. simpl in Heq. lia.
  - apply (f_equal String.length) in Heq. rewrite !append_length in Heq. simpl in Heq. lia.
  - injection Heq as -> Heq. f_equal. by apply IH.
Qed.

Lemma burstKey_inj (id id' : string) : burstKey id = burstKey id' → id = id'.
Proof. apply append_cancel_r. Qed.

(** The outcome of a call and the windows it leaves are a function of the
    limits and of the two windows of its identifier. *)
Lemma checkLimit_reads_own_windows identifier now rl1 rl2 :
  limits rl1 = limits rl2 →
  current (burstUsage rl1 !! burstKey identifier) now burstWindow
  = current (burstUsage rl2 !! burstKey identifier) now burstWindow →
  current (usage rl1 !! identifier) now minuteWindow
  = current (usage rl2 !! identifier) now minuteWindow →
  (checkLimit (Some identifier) now rl1).2 = (checkLimit (Some identifier) now rl2).2
  ∧ burstUsage (checkLimit (Some identifier) now rl1).1 !! burstKey identifier
    = burstUsage (checkLimit (Some identifier) now rl2).1 !! burstKey identifier
  ∧ (usage (checkLimit (Some identifier) now rl1).1 !! identifier
     = usage (checkLimit (Some identifier) now rl2).1 !! identifier
     ∨ (usage (checkLimit (Some identifier) now rl1).1 !! identifier = usage rl1 !! identifier
        ∧ usage (checkLimit (Some identifier) now rl2).1 !! identifier = usage rl2 !! identifier
        ∧ burst_rejected (checkLimit (Some identifier) now rl1).2)).
Proof.
  intros Hl Hb Hs. rewrite !checkLimit_unfold. simpl. rewrite Hl, Hb, Hs.
  destruct (burst_limit (limits rl2) <=? _); simpl.
  - split; [done|]. rewrite !lookup_insert_eq. split; [done|]. right.
    split_and!; [done|done|by eexists].
  - destruct (requests_per_minute (limits rl2) <=? _); simpl;
      rewrite !lookup_insert_eq; split_and!; try done; by left.
Qed.

(** What a call leaves of the windows of other keys. *)
Lemma checkLimit_other_keys identifier now rl :
  limits (checkLimit (Some identifier) now rl).1 = limits rl
  ∧ (∀ key, key ≠ burstKey identifier →
       burstUsage (checkLimit (Some identifier) now rl).1 !! key = burstUsage rl !! key)
  ∧ (∀ key, key ≠ identifier →
       usage (checkLimit (Some identifier) now rl).1 !! key = usage rl !! key).
Proof.
  rewrite checkLimit_unfold. simpl.
  destruct (burst_limit (limits rl) <=? _); simpl;
    [|destruct (requests_per_minute (limits rl) <=? _); simpl];
    split_and!; try done; intros key Hne; by rewrite ?lookup_insert_ne.
Qed.

(** X1. A call for one identifier leaves the windows of every other
    identifier as they were, so neither the usage reported for another
    identifier nor the outcome of its next call changes. *)
Theorem other_identifiers_untouched (rl : t) (identifier other : string) (now : Z) :
  identifier ≠ other →
  let rl' := (checkLimit (Some identifier) now rl).1 in
  usage rl' !! other = usage rl !! other
  ∧ burstUsage rl' !! burstKey other = burstUsage rl !! burstKey other
  ∧ (∀ t, (getUsage other t rl').2 = (getUsage other t rl).2)
  ∧ (∀ t, (checkLimit (Some other) t rl').2 = (checkLimit (Some other) t rl).2).
Proof.
  intros Hne rl'. destruct (checkLimit_other_keys identifier now rl) as (Hl & Hb & Hu).
  fold rl' in Hl, Hb, Hu. clearbody rl'.
  assert (Hu' : usage rl' !! other = usage rl !! other) by (apply Hu; congruence).
  assert (Hb' : burstUsage rl' !! burstKey other = burstUsage rl !! burstKey other).
  { apply Hb. intros Heq. apply burstKey_inj in Heq. congruence. }
  split_and!; [done|done| |].
  - intros t. unfold getUsage. simpl. by rewrite Hu', Hb', Hl.
  - intros t. apply checkLimit_reads_own_windows; [done|by rewrite Hb'|by rewrite Hu'].
Qed.

Lemma other_identifiers_untouched_witness :
  let rl := (checkLimit_seq "alice" (replicate 10 0%Z) (new no_config)).1 in
  (checkLimit (Some "alice") 1 rl).2 = Throw (burstError 10)
  ∧ (checkLimit (Some "bob") 2 (checkLimit (Some "alice") 1 rl).1).2
    = (checkLimit (Some "bob") 2 rl).2
  ∧ (checkLimit (Some "bob") 2 rl).2 = Return tt.
Proof.
  intros rl. split; [vm_compute; reflexivity|]. split.
  - destruct (other_identifiers_untouched rl "alice" "bob" 1) as (_ & _ & _ & H);
      [discriminate|]. exact (H 2%Z).
  - vm_compute. reflexivity.
Defined.

(** ** [cleanup] *)

Lemma stale_later latest now entry : (latest ≤ now)%Z → stale latest entry → stale now entry.
Proof. destruct entry; simpl; [lia|done]. Qed.

Lemma current_stale latest now window entry :
  (latest ≤ now)%Z → stale latest entry → current entry now window = mkWindow 0 (now + window).
Proof.
  intros Hle Hs. unfold current. destruct entry as [d|]; [|done].
  simpl in Hs. case_match eqn:E; [done|lia].
Qed.

Lemma same_from_step latest now identifier rl1 rl2 :
  (latest ≤ now)%Z → same_from latest rl1 rl2 →
  (checkLimit (Some identifier) now rl1).2 = (checkLimit (Some identifier) now rl2).2
  ∧ same_from now (checkLimit (Some identifier) now rl1).1 (checkLimit (Some identifier) now rl2).1.
Proof.
  intros Hle (Hl & Hb & Hu).
  assert (Hcur : ∀ (m1 m2 : gmap string UsageWindow) key window,
            (m1 !! key = m2 !! key ∨ (stale latest (m1 !! key) ∧ stale latest (m2 !! key))) →
            current (m1 !! key) now window = current (m2 !! key) now window).
  { intros m1 m2 key window [->|[H1 H2]]; [done|].
    by rewrite !(current_stale latest now window). }
  destruct (checkLimit_reads_own_windows identifier now rl1 rl2 Hl
              (Hcur _ _ _ _ (Hb _)) (Hcur _ _ _ _ (Hu _))) as (Ho & Hb' & Hu').
  destruct (checkLimit_other_keys identifier now rl1) as (Hl1 & Hb1 & Hu1).
  destruct (checkLimit_other_keys identifier now rl2) as (Hl2 & Hb2 & Hu2).
  split; [exact Ho|]. split_and!.
  - congruence.
  - intros key. destruct (decide (key = burstKey identifier)) as [->|Hne]; [by left|].
    rewrite Hb1, Hb2 by done. destruct (Hb key) as [?|[? ?]]; [by left|right].
    split; by eapply stale_later.
  - intros key. destruct (decide (key = identifier)) as [->|Hne].
    + destruct Hu' as [?|(E1 & E2 & _)]; [by left|]. rewrite E1, E2.
      destruct (Hu identifier) as [?|[? ?]]; [by left|right]. split; by eapply stale_later.
    + rewrite Hu1, Hu2 by done. destruct (Hu key) as [?|[? ?]]; [by left|right].
      split; by eapply stale_later.
Qed.

Lemma checkLimit_trace_cons call calls rl :
  checkLimit_trace (call :: calls) rl =
  ((checkLimit_trace calls (checkLimit (Some call.1) call.2 rl).1).1,
   (checkLimit (Some call.1) call.2 rl).2
     :: (checkLimit_trace calls (checkLimit (Some call.1) call.2 rl).1).2).
Proof.
  simpl. destruct (checkLimit (Some call.1) call.2 rl) as [rl1 o]. simpl.
  destruct (checkLimit_trace calls rl1); reflexivity.
Qed.

Lemma same_from_trace calls : ∀ latest rl1 rl2,
  clock_from latest calls → same_from latest rl1 rl2 →
  (checkLimit_trace calls rl1).2 = (checkLimit_trace calls rl2).2.
Proof.
  induction calls as [|call calls IH]; intros latest rl1 rl2 Hclock Hsame; [done|].
  destruct Hclock as [Hle Hclock]. rewrite !checkLimit_trace_cons. simpl.
  destruct (same_from_step latest call.2 call.1 rl1 rl2 Hle Hsame) as [Ho Hsame'].
  rewrite Ho. f_equal. by eapply IH.
Qed.

Lemma filter_stale now window (m : gmap string UsageWindow) key :
  (0 ≤ window)%Z →
  filter (λ kv : string * UsageWindow, ¬ (resetTime kv.2 + window < now)%Z) m !! key = m !! key
  ∨ (stale now (filter (λ kv : string * UsageWindow, ¬ (resetTime kv.2 + window < now)%Z) m !! key)
     ∧ stale now (m !! key)).
Proof.
  intros Hw. rewrite map_lookup_filter.
  destruct (m !! key) as [d|] eqn:E; simpl; [|by left].
  case_guard as Hg; simpl in *; [by left|right]. split; [done|].
  destruct (decide (resetTime d + window < now)%Z); [lia|done].
Qed.

Lemma cleanup_same_from now rl : same_from now (cleanup now rl) rl.
Proof.
  split_and!; [done| |]; intros key; simpl; by apply filter_stale.
Qed.

(** X2. [cleanup] cannot be observed through [checkLimit]: whatever calls
    follow it, for whatever identifiers, as long as the clock does not go
    back, every one of them has the outcome it would have had without the
    cleanup. *)
Theorem cleanup_is_transparent (rl : t) (now : Z) (calls : list (string * Z)) :
  clock_from now calls →
  (checkLimit_trace calls (cleanup now rl)).2 = (checkLimit_trace calls rl).2.
Proof. intros Hclock. eapply same_from_trace; [exact Hclock|apply cleanup_same_from]. Qed.

Lemma cleanup_is_transparent_witness :
  let rl := (checkLimit_seq "alice" (replicate 11 0%Z) (new no_config)).1 in
  usage (cleanup 200000 rl) !! "alice" = None
  ∧ usage rl !! "alice" = Some (mkWindow 10 60000)
  ∧ (checkLimit_trace [("alice", 200000%Z); ("bob", 200001%Z)] (cleanup 200000 rl)).2
    = (checkLimit_trace [("alice", 200000%Z); ("bob", 200001%Z)] rl).2.
Proof.
  intros rl. split; [vm_compute; reflexivity|]. split; [vm_compute; reflexivity|].
  apply (cleanup_is_transparent rl 200000). simpl. lia.
Defined.

(** ** Bounds kept by every run *)

Lemma ceil_seconds_bounds d :
  (1000 * (ceil_seconds d - 1) < d ≤ 1000 * ceil_seconds d)%Z.
Proof.
  unfold ceil_seconds.
  pose proof (Z.div_mod (- d) 1000 ltac:(lia)).
  pose proof (Z.mod_pos_bound (- d) 1000 ltac:(lia)). lia.
Qed.

Lemma current_bounded latest now window limit (m : gmap string UsageWindow) key :
  (0 ≤ window)%Z → (latest ≤ now)%Z →
  (∀ key d, m !! key = Some d → count d ≤ limit ∧ (resetTime d ≤ latest + window)%Z) →
  count (current (m !! key) now window) ≤ limit
  ∧ (now ≤ resetTime (current (m !! key) now window) ≤ now + window)%Z.
Proof.
  intros Hw Hle Hm. unfold current. destruct (m !! key) as [d|] eqn:E; simpl; [|lia].
  destruct (Hm key d E) as [Hc Hr]. case_match eqn:Ex; simpl; lia.
Qed.

Lemma windows_bounded_step latest now identifier rl :
  (latest ≤ now)%Z → windows_bounded latest rl →
  windows_bounded now (checkLimit (Some identifier) now rl).1
  ∧ ((checkLimit (Some identifier) now rl).2 = Return tt
     ∨ (∃ n, (checkLimit (Some identifier) now rl).2 = Throw (burstError n) ∧ (0 ≤ n ≤ 10)%Z)
     ∨ (∃ n, (checkLimit (Some identifier) now rl).2 = Throw (sustainedError n)
             ∧ (0 ≤ n ≤ 60)%Z)).
Proof.
  intros Hle [Hb Hu].
  destruct (current_bounded latest now burstWindow (burst_limit (limits rl))
              (burstUsage rl) (burstKey identifier) ltac:(done) Hle Hb) as [Hbc Hbr].
  destruct (current_bounded latest now minuteWindow (requests_per_minute (limits rl))
              (usage rl) identifier ltac:(done) Hle Hu) as [Hsc Hsr].
  pose proof (ceil_seconds_bounds
    (resetTime (current (burstUsage rl !! burstKey identifier) now burstWindow) - now)) as Hcb.
  pose proof (ceil_seconds_bounds
    (resetTime (current (usage rl !! identifier) now minuteWindow) - now)) as Hcs.
  assert (Hkeep : windows_bounded now rl).
  { split; intros key d Hd; [destruct (Hb key d Hd)|destruct (Hu key d Hd)]; split; lia. }
  destruct Hkeep as [Hb0 Hu0].
  rewrite checkLimit_unfold. simpl.
  destruct (burst_limit (limits rl) <=? _) eqn:EN; simpl.
  - split.
    + split; simpl; [|done]. intros key d.
      destruct (decide (key = burstKey identifier)) as [->|Hne].
      * rewrite lookup_insert_eq. intros [= <-]. split; [done|lia].
      * rewrite lookup_insert_ne by done. apply Hb0.
    + right. left. eexists. split; [done|]. unfold burstWindow in *. lia.
  - apply Nat.leb_gt in EN.
    assert (Hbk : ∀ key d,
      <[burstKey identifier :=
          counted (current (burstUsage rl !! burstKey identifier) now burstWindow)]>
        (burstUsage rl) !! key = Some d →
      count d ≤ burst_limit (limits rl) ∧ (resetTime d ≤ now + burstWindow)%Z).
    { intros key d. destruct (decide (key = burstKey identifier)) as [->|Hne].
      - rewrite lookup_insert_eq. intros [= <-]. simpl. split; lia.
      - rewrite lookup_insert_ne by done. apply Hb0. }
    destruct (requests_per_minute (limits rl) <=? _) eqn:EM; simpl.
    + split.
      * split; simpl; [exact Hbk|]. intros key d.
        destruct (decide (key = identifier)) as [->|Hne].
        -- rewrite lookup_insert_eq. intros [= <-]. split; [done|lia].
        -- rewrite lookup_insert_ne by done. apply Hu0.
      * right. right. eexists. split; [done|]. unfold minuteWindow in *. lia.
    + apply Nat.leb_gt in EM. split; [|by left].
      split; simpl; [exact Hbk|]. intros key d.
      destruct (decide (key = identifier)) as [->|Hne].
      * rewrite lookup_insert_eq. intros [= <-]. simpl. split; lia.
      * rewrite lookup_insert_ne by done. apply Hu0.
Qed.

Lemma windows_bounded_trace calls : ∀ latest rl,
  clock_from latest calls → windows_bounded latest rl →
  (∃ last, windows_bounded last (checkLimit_trace calls rl).1)
  ∧ Forall (λ o, o = Return tt
                 ∨ (∃ n, o = Throw (burstError n) ∧ (0 ≤ n ≤ 10)%Z)
                 ∨ (∃ n, o = Throw (sustainedError n) ∧ (0 ≤ n ≤ 60)%Z))
      (checkLimit_trace calls rl).2.
Proof.
  induction calls as [|call calls IH]; intros latest rl Hclock Hb.
  - split; [by exists latest|constructor].
  - destruct Hclock as [Hle Hclock]. rewrite checkLimit_trace_cons. simpl.
    destruct (windows_bounded_step latest call.2 call.1 rl Hle Hb) as [Hb' Ho].
    destruct (IH call.2 _ Hclock Hb') as [Hlast Hos].
    split; [exact Hlast|]. by constructor.
Qed.

(** X3. In a limiter that has only served calls since it was made, with a
    clock that does not go back, every call is admitted or rejected with a
    wait between 0 and 10 seconds (burst) or between 0 and 60 seconds
    (sustained), and the usage reported afterwards for any identifier has
    count + remaining = limit in both windows. *)
Theorem waits_and_counts_are_bounded
    (config : Config) (start : Z) (calls : list (string * Z)) (identifier : string) (now : Z) :
  clock_from start calls →
  let run := checkLimit_trace calls (new config) in
  Forall (λ o, o = Return tt
               ∨ (∃ n, o = Throw (burstError n) ∧ (0 ≤ n ≤ 10)%Z)
               ∨ (∃ n, o = Throw (sustainedError n) ∧ retryAfter (sustainedError n) = Some n
                       ∧ (0 ≤ n ≤ 60)%Z))
    run.2
  ∧ let snapshot := (getUsage identifier now run.1).2 in
    (Z.of_nat (wu_count (sustained snapshot)) + wu_remaining (sustained snapshot)
     = Z.of_nat (wu_limit (sustained snapshot)))%Z
    ∧ (Z.of_nat (wu_count (burst snapshot)) + wu_remaining (burst snapshot)
       = Z.of_nat (wu_limit (burst snapshot)))%Z.
Proof.
  intros Hclock run.
  assert (Hnew : windows_bounded start (new config)).
  { split; intros key d Hd; simpl in Hd; by rewrite lookup_empty in Hd. }
  destruct (windows_bounded_trace calls start (new config) Hclock Hnew) as [[last [Hb Hu]] Hos].
  fold run in Hb, Hu, Hos. split.
  - eapply Forall_impl; [exact Hos|]. simpl. intros o [?|[?|(n & ? & ?)]]; [by left|by right; left|].
    right. right. by exists n.
  - simpl. split.
    + destruct (usage run.1 !! identifier) as [d|] eqn:E; simpl; [|lia].
      destruct (Hu _ _ E). lia.
    + destruct (burstUsage run.1 !! burstKey identifier) as [d|] eqn:E; simpl; [|lia].
      destruct (Hb _ _ E). lia.
Qed.

Lemma waits_and_counts_are_bounded_witness :
  let calls := [("alice", 0%Z); ("alice", 500%Z); ("bob", 9000%Z); ("alice", 9500%Z)] in
  let run := checkLimit_trace calls (new (mkConfig None (Some 2) None)) in
  run.2 = [Return tt; Return tt; Return tt; Throw (burstError 1)]
  ∧ (Z.of_nat (wu_count (burst (getUsage "alice" 9600 run.1).2))
     + wu_remaining (burst (getUsage "alice" 9600 run.1).2) = 2)%Z.
Proof.
  intros calls run. split; [vm_compute; reflexivity|].
  destruct (waits_and_counts_are_bounded (mkConfig None (Some 2) None) 0 calls "alice" 9600)
    as (_ & _ & H); [simpl; lia|]. exact H.
Defined.

(** ** [resetUsage] and retries *)

(** X4. [resetUsage] gives an identifier its whole quota back and touches no
    other identifier: the usage reported for it is 0 of the limit in both
    windows, its next call is admitted exactly when both limits are at
    least 1, and the reports and outcomes of every other identifier stay
    as they were. *)
Theorem resetUsage_restores_quota (rl : t) (identifier other : string) (now : Z) :
  let rl' := resetUsage identifier rl in
  let snapshot := (getUsage identifier now rl').2 in
  wu_count (sustained snapshot) = 0
  ∧ wu_count (burst snapshot) = 0
  ∧ wu_remaining (sustained snapshot) = Z.of_nat (requests_per_minute (limits rl))
  ∧ wu_remaining (burst snapshot) = Z.of_nat (burst_limit (limits rl))
  ∧ ((checkLimit (Some identifier) now rl').2 = Return tt
     ↔ 0 < burst_limit (limits rl) ∧ 0 < requests_per_minute (limits rl))
  ∧ (other ≠ identifier →
     (getUsage other now rl').2 = (getUsage other now rl).2
     ∧ (checkLimit (Some other) now rl').2 = (checkLimit (Some other) now rl).2).
Proof.
  intros rl' snapshot.
  assert (Hu : usage rl' !! identifier = None) by apply lookup_delete_eq.
  assert (Hb : burstUsage rl' !! burstKey identifier = None) by apply lookup_delete_eq.
  assert (Hl : limits rl' = limits rl) by reflexivity.
  assert (Hu' : other ≠ identifier → usage rl' !! other = usage rl !! other).
  { intros Hne. simpl. by rewrite lookup_delete_ne. }
  assert (Hb' : other ≠ identifier →
                burstUsage rl' !! burstKey other = burstUsage rl !! burstKey other).
  { intros Hne. simpl. rewrite lookup_delete_ne; [done|].
    intros Heq. apply burstKey_inj in Heq. done. }
  clearbody rl'. subst snapshot. unfold getUsage. simpl. rewrite Hu, Hb, Hl. simpl.
  split_and!; try done; try lia.
  - rewrite checkLimit_unfold. cbn zeta. rewrite Hu, Hb, Hl. simpl.
    destruct (burst_limit (limits rl)) as [|N]; simpl.
    + split; [discriminate|lia].
    + destruct (requests_per_minute (limits rl)) as [|M]; simpl.
      * split; [discriminate|lia].
      * split; [lia|done].
  - intros Hne. split.
    + by rewrite Hu', Hb'.
    + apply checkLimit_reads_own_windows; [done|by rewrite Hb'|by rewrite Hu'].
Qed.

Lemma resetUsage_restores_quota_witness :
  let rl := (checkLimit_seq "alice" (replicate 10 0%Z) (new no_config)).1 in
  (checkLimit (Some "alice") 1 rl).2 = Throw (burstError 10)
  ∧ (checkLimit (Some "alice") 1 (resetUsage "alice" rl)).2 = Return tt
  ∧ (getUsage "bob" 1 (resetUsage "alice" rl)).2 = (getUsage "bob" 1 rl).2.
Proof.
  intros rl. split; [vm_compute; reflexivity|].
  destruct (resetUsage_restores_quota rl "alice" "bob" 1) as (_ & _ & _ & _ & Hok & Hother).
  split.
  - apply Hok. vm_compute. lia.
  - apply Hother. discriminate.
Defined.

(** X5. A rejection by the sustained check tells the caller how long to wait:
    [retryAfter] is the time to the end of the window in whole seconds,
    rounded up. Until the window's reset time, that instant included, no
    call of the identifier is admitted; any call after it is past the
    sustained check when the per-minute limit is at least 1. So a retry
    strictly later than [retryAfter] seconds is never rejected by the
    sustained check, while one at exactly [retryAfter] seconds still is
    when the window closes on a whole second. *)
Theorem retry_after_is_the_time_to_reset (rl : t) (identifier : string) (now n : Z) :
  retry_seconds (checkLimit (Some identifier) now rl).2 = Some n →
  let rl' := (checkLimit (Some identifier) now rl).1 in
  ∃ d, usage rl' !! identifier = Some d
       ∧ (now + 1000 * (n - 1) < resetTime d ≤ now + 1000 * n)%Z
       ∧ (∀ t, (t ≤ resetTime d)%Z → (checkLimit (Some identifier) t rl').2 ≠ Return tt)
       ∧ (0 < requests_per_minute (limits rl) →
          ∀ t, (resetTime d < t)%Z → ¬ sustained_rejected (checkLimit (Some identifier) t rl').2).
Proof.
  intros Hretry rl'.
  destruct (checkLimit_step identifier now rl) as [Hlimits Hcase]. simpl in Hlimits, Hcase.
  fold rl' in Hlimits, Hcase.
  destruct Hcase as [(_ & _ & _ & Ho) | (_ & _ & [(HM & Hs & Ho) | (_ & _ & Ho)])];
    rewrite Ho in Hretry; simpl in Hretry; try discriminate.
  injection Hretry as <-.
  set (s := current (usage rl !! identifier) now minuteWindow) in *.
  exists s. split; [exact Hs|]. split.
  { pose proof (ceil_seconds_bounds (resetTime s - now)). lia. }
  split.
  - intros t Ht Hret.
    destruct (checkLimit_step identifier t rl') as [_ Hcase]. simpl in Hcase.
    rewrite Hret, Hs in Hcase.
    destruct Hcase as [(_ & _ & _ & Ho') | (_ & _ & [(_ & _ & Ho') | (Hlt & _)])];
      try discriminate.
    destruct s as [c R]. rewrite current_opened in Hlt by exact Ht.
    simpl in *. rewrite Hlimits in Hlt. lia.
  - intros Hpos t Ht [m Hm].
    destruct (checkLimit_step identifier t rl') as [_ Hcase]. simpl in Hcase.
    rewrite Hm, Hs in Hcase.
    destruct Hcase as [(_ & _ & _ & Ho') | (_ & _ & [(Hge & _) | (_ & _ & Ho')])];
      try discriminate.
    unfold current in Hge. destruct (resetTime s <? t)%Z eqn:E; [|lia].
    simpl in Hge. rewrite Hlimits in Hge. lia.
Qed.

Lemma retry_after_is_the_time_to_reset_witness :
  let rl := (checkLimit (Some "carol") 0 (new (mkConfig None None (Some 1)))).1 in
  (checkLimit (Some "carol") 30000 rl).2 = Throw (sustainedError 30)
  ∧ (checkLimit (Some "carol") 60000 (checkLimit (Some "carol") 30000 rl).1).2
    = Throw (sustainedError 0)
  ∧ (checkLimit (Some "carol") 60001 (checkLimit (Some "carol") 30000 rl).1).2 = Return tt
  ∧ ∃ d, usage (checkLimit (Some "carol") 30000 rl).1 !! "carol" = Some d
         ∧ (30000 + 1000 * (30 - 1) < resetTime d ≤ 30000 + 1000 * 30)%Z.
Proof.
  intros rl. split; [vm_compute; reflexivity|]. split; [vm_compute; reflexivity|].
  split; [vm_compute; reflexivity|].
  destruct (retry_after_is_the_time_to_reset rl "carol" 30000 30) as (d & Hd & Hr & _);
    [vm_compute; reflexivity|].
  exists d. split; [exact Hd|exact Hr].
Defined.

End RateLimiterMore.

(* ===================================================================== *)
(** * The aggregates of the metrics collector against its log *)
(* ===================================================================== *)

Section MetricsMore.
Import MetricsCollector.


Lemma sum_tokens_snoc log r : sum_tokens (log ++ [r]) = (sum_tokens log + tokens r)%Z.
Proof. unfold sum_tokens. by rewrite foldl_app. Qed.

Lemma sum_cost_snoc log r : sum_cost (log ++ [r]) = Qplus (sum_cost log) (cost r).
Proof. unfold sum_cost. by rewrite foldl_app. Qed.











(** ** Hours *)









(** ** [cleanup] *)




(** ** [getRecentRequests] *)

(** X10. [getRecentRequests(limit)] returns the end of the log, in log order,
    with each cost rounded to four decimals: the last [limit] requests (all
    of them when the log is shorter) for a positive [limit], and the whole
    log for a [limit] of 0, which [slice(-0)] does not cut. *)
Theorem recent_requests_are_the_end_of_the_log (mc : t) (limit : Z) :
  (0 ≤ limit)%Z →
  ∃ older recent,
    requests mc = older ++ recent
    ∧ getRecentRequests limit mc
      = (λ r, mkRequest (model r) (tokens r) (toFixed4 (cost r)) (duration r) (success r)
                (timestamp r)) <$> recent
    ∧ length recent
      = if decide (limit = 0%Z) then length (requests mc)
        else Z.to_nat limit `min` length (requests mc).
Proof.
  intros Hlimit. unfold getRecentRequests, slice_last.
  set (start := Z.to_nat _).
  exists (take start (requests mc)), (drop start (requests mc)).
  split; [by rewrite take_drop|]. split; [reflexivity|].
  rewrite length_drop. subst start. case_decide as Hz.
  - subst limit. simpl. lia.
  - destruct (0 <? limit)%Z eqn:E; [|lia]. lia.
Qed.

Lemma recent_requests_are_the_end_of_the_log_witness :
  let entries :=
    [(0%Z, mkMetric "a" None None None None (Some 1%Z));
     (0%Z, mkMetric "b" None None None None (Some 2%Z));
     (0%Z, mkMetric "c" None None None None (Some 3%Z))] in
  let mc := record_all entries new in
  model <$> getRecentRequests 2 mc = ["b"; "c"]
  ∧ length (getRecentRequests 0 mc) = 3
  ∧ ∃ older recent, requests mc = older ++ recent ∧ length recent = 2.
Proof.
  intros entries mc. split; [vm_compute; reflexivity|]. split; [vm_compute; reflexivity|].
  destruct (recent_requests_are_the_end_of_the_log mc 2 ltac:(lia))
    as (older & recent & Hlog & _ & Hlen).
  exists older, recent. split; [exact Hlog|]. rewrite Hlen. vm_compute. reflexivity.
Defined.

End MetricsMore.

(* ===================================================================== *)
(** * The router: registry, rate limiting and results *)
(* ===================================================================== *)

Section RouterMore.
Import ModelRouter.

Lemma adapters_get_set adapters modelId adapter id :
  adapters_get (adapters_set adapters modelId adapter) id
  = if bool_decide (modelId = id) then Some adapter else adapters_get adapters id.
Proof.
  induction adapters as [|[k a] rest IH]; simpl.
  - by case_bool_decide.
  - destruct (bool_decide (k = modelId)) eqn:E1; simpl.
    + apply bool_decide_eq_true in E1 as ->. by case_bool_decide.
    + apply bool_decide_eq_false in E1. rewrite IH.
      repeat case_bool_decide; try done; congruence.
Qed.

Lemma adapters_set_new adapters modelId adapter :
  modelId ∉ adapters.*1 →
  adapters_set adapters modelId adapter = adapters ++ [(modelId, adapter)].
Proof.
  induction adapters as [|[k a] rest IH]; simpl; [done|].
  rewrite not_elem_of_cons. intros [Hne Hnin].
  rewrite bool_decide_eq_false_2 by congruence. by rewrite IH.
Qed.

Lemma NoDup_keys_functional {A : Type} (l : list (string * A)) k a b :
  NoDup l.*1 → (k, a) ∈ l → (k, b) ∈ l → a = b.
Proof.
  induction l as [|[k' c] l IH]; intros Hnd Ha Hb; [by apply not_elem_of_nil in Ha|].
  apply NoDup_cons in Hnd as [Hk Hnd].
  apply elem_of_cons in Ha as [Ha|Ha]; apply elem_of_cons in Hb as [Hb|Hb].
  - congruence.
  - injection Ha as -> ->. destruct Hk. apply list_elem_of_fmap. by exists (k', b).
  - injection Hb as -> ->. destruct Hk. apply list_elem_of_fmap. by exists (k', a).
  - by apply IH.
Qed.

Lemma initializeAdapters_registered classes models : ∀ adapters,
  NoDup (adapters.*1 ++ models.*1) →
  foldl (initializeAdapter classes) adapters models
  = adapters ++ omap (λ entry, (λ a, (entry.1, a)) <$> adapter_of classes entry.2) models.
Proof.
  induction models as [|[id cfg] models IH]; intros adapters Hnd; simpl.
  - by rewrite app_nil_r.
  - assert (Hid : id ∉ adapters.*1).
    { apply NoDup_app in Hnd as (_ & Hdisj & _). intros Hin. apply (Hdisj id Hin). left. }
    assert (Hrest : NoDup (adapters.*1 ++ models.*1)).
    { apply NoDup_app in Hnd as (H1 & Hdisj & H2%NoDup_cons_1_2).
      apply NoDup_app. split_and!; [done| |done].
      intros x Hx Hx'. apply (Hdisj x Hx). by right. }
    unfold initializeAdapter at 2, adapter_of. simpl.
    destruct (bool_decide (enabled cfg = Some false)); simpl; [by apply IH|].
    destruct (construct classes cfg) as [[a|e]|]; simpl; [|by apply IH..].
    rewrite adapters_set_new by done. rewrite IH.
    + by rewrite <- app_assoc.
    + rewrite fmap_app. simpl. rewrite <- app_assoc. simpl.
      apply NoDup_app in Hnd as (H1 & Hdisj & H2).
      apply NoDup_app. split_and!; [done| |done].
      intros x Hx Hx'. by apply (Hdisj x Hx).
Qed.

(** X11. [initializeAdapters] registers exactly the models of the
    configuration that are not disabled, whose provider is one of the
    three known ones and whose adapter constructor did not throw, in the
    order of the configuration. A model is routable exactly when it is one
    of these; for a disabled model [callModel] throws the
    model-not-available error. *)
Theorem initializeAdapters_registers_enabled_models
    (classes : AdapterClasses) (models : list (string * ModelConfig)) :
  NoDup models.*1 →
  let adapters := initializeAdapters classes models in
  adapters.*1
  = (filter (λ entry, is_Some (adapter_of classes entry.2)) models).*1
  ∧ (∀ id adapter,
       adapters_get adapters id = Some adapter
       ↔ ∃ modelConfig,
           (id, modelConfig) ∈ models
           ∧ enabled modelConfig ≠ Some false
           ∧ construct classes modelConfig = Some (Return adapter))
  ∧ (∀ id modelConfig fuel fallback selector limiter collector args,
       (id, modelConfig) ∈ models → enabled modelConfig = Some false →
       callModel (S fuel) (mkRouter fallback selector adapters limiter collector) id args
       = Some ([id], Throw (modelNotAvailable id adapters.*1))).
Proof.
  intros Hnd adapters.
  assert (Hreg : adapters
    = omap (λ entry, (λ a, (entry.1, a)) <$> adapter_of classes entry.2) models).
  { subst adapters. unfold initializeAdapters.
    by rewrite initializeAdapters_registered. }
  assert (Hget : ∀ id adapter,
    adapters_get adapters id = Some adapter
    ↔ ∃ modelConfig, (id, modelConfig) ∈ models ∧ adapter_of classes modelConfig = Some adapter).
  { rewrite Hreg. clear Hreg adapters. intros id adapter.
    induction models as [|[k cfg] models IH]; simpl.
    - split; [done|]. intros (? & Hin & _). by apply not_elem_of_nil in Hin.
    - apply NoDup_cons in Hnd as [Hk Hnd]. specialize (IH Hnd).
      destruct (adapter_of classes cfg) as [a|] eqn:Ea; simpl.
      + case_bool_decide as Hid.
        * subst k. split.
          -- intros [= <-]. exists cfg. split; [left|done].
          -- intros (cfg' & Hin & Ha). apply elem_of_cons in Hin as [[= <-]|Hin]; [congruence|].
             destruct Hk. apply list_elem_of_fmap. by exists (id, cfg').
        * rewrite IH. split; intros (cfg' & Hin & Ha); exists cfg'; (split; [|done]).
          -- by right.
          -- apply elem_of_cons in Hin as [[= ? ?]|Hin]; [congruence|done].
      + rewrite IH. split; intros (cfg' & Hin & Ha); exists cfg'; (split; [|done]).
        * by right.
        * apply elem_of_cons in Hin as [[= <- <-]|Hin]; [congruence|done]. }
  assert (Hof : ∀ cfg adapter,
    adapter_of classes cfg = Some adapter
    ↔ enabled cfg ≠ Some false ∧ construct classes cfg = Some (Return adapter)).
  { intros cfg adapter. unfold adapter_of. case_bool_decide as He.
    - split; [done|]. intros [? _]. done.
    - destruct (construct classes cfg) as [[a|e]|]; split; try done;
        try (intros [_ [=]]; congruence); try (intros [= <-]; done). }
  split_and!.
  - rewrite Hreg. clear. induction models as [|[k cfg] models IH]; simpl; [done|].
    rewrite filter_cons. case_decide as Hs; simpl in Hs.
    + destruct Hs as [a ->]. simpl. f_equal. exact IH.
    + destruct (adapter_of classes cfg) as [a|]; [destruct Hs; by eexists|]. exact IH.
  - intros id adapter. rewrite Hget. by setoid_rewrite Hof.
  - intros id cfg fuel fallback sel limiter collector args Hin Hdis. simpl.
    destruct (adapters_get adapters id) as [a|] eqn:Ea; [|done].
    apply Hget in Ea as (cfg' & Hin' & Ha).
    assert (cfg' = cfg) as -> by (by eapply NoDup_keys_functional).
    apply Hof in Ha as [Hen _]. done.
Qed.

Lemma initializeAdapters_registers_enabled_models_witness :
  let adapter : Adapter := λ _, Throw (mkError "down" None None) in
  let classes :=
    mkClasses (λ _, Return adapter) (λ _, Throw (mkError "Google API key not found" None None))
      (λ _, Return adapter) in
  let models :=
    [("o3", mkModelConfig None (Some "openai") None None);
     ("gpt-4", mkModelConfig (Some false) (Some "openai") None None);
     ("gemini-pro", mkModelConfig (Some true) (Some "google") None None);
     ("llama", mkModelConfig None (Some "meta") None None);
     ("claude-3-5-sonnet", mkModelConfig (Some true) (Some "anthropic") None None)] in
  (initializeAdapters classes models).*1 = ["o3"; "claude-3-5-sonnet"].
Proof.
  intros adapter classes models.
  destruct (initializeAdapters_registers_enabled_models classes models) as (Hkeys & _).
  - apply (bool_decide_unpack _). vm_compute. exact I.
  - rewrite Hkeys. vm_compute. reflexivity.
Defined.

(** ** What a [routeQuery] does besides answering *)

(** X12. Every [routeQuery] passes the rate limiter exactly once, for the
    identifier of its client, whether or not the request then succeeds.
    When the limiter rejects it, the limiter's error is thrown and no model
    is entered. At most two models are entered. A result that is returned
    is the one the adapter of the last model entered gave, and the log
    entry of the call carries that result's total tokens and cost (0 where
    the result has none). *)
Theorem routeQuery_effects (fuel : nat) (r : t) (args : Args) (clock : Clock) :
  let check :=
    RateLimiter.checkLimit (Some (getClientIdentifier args)) (limiterNow clock) (rateLimiter r) in
  ∃ run,
    routeQuery (S (S fuel)) args clock r = Some run
    ∧ rateLimiter (router run) = check.1
    ∧ adapters (router run) = adapters r
    ∧ fallback_model (router run) = fallback_model r
    ∧ (∀ error, check.2 = Throw error → called run = [] ∧ result run = Throw error)
    ∧ length (called run) ≤ 2
    ∧ (∀ res, result run = Return res →
         ∃ served entry,
           last (called run) = Some served
           ∧ attempt r served args = Return res
           ∧ MetricsCollector.requests (metrics (router run))
             = MetricsCollector.requests (metrics r) ++ [entry]
           ∧ MetricsCollector.tokens entry = default 0%Z (total_tokens res)
           ∧ MetricsCollector.cost entry = default 0%Q (cost res)
           ∧ MetricsCollector.success entry = true).
Proof.
  intros check. subst check. unfold routeQuery.
  destruct (RateLimiter.checkLimit _ _ _) as [rl [[]|error]].
  2:{ eexists. split; [reflexivity|]. simpl. split_and!; try done; try lia.
      by intros ? [= <-]. }
  destruct (match truthy (model args) with
            | Some m => Return m
            | None => selector r args
            end) as [modelId|error].
  2:{ eexists. split; [reflexivity|]. simpl. split_and!; try done; try lia. }
  rewrite callModel_unfold. simpl. unfold attempt.
  destruct (adapters_get (adapters r) modelId) as [adapter|] eqn:Eget; simpl.
  2:{ eexists. split; [reflexivity|]. simpl. split_and!; try done; try lia. }
  destruct (adapter args) as [res|error] eqn:Ecall; simpl.
  { eexists. split; [reflexivity|]. simpl. split_and!; try done; try lia.
    intros ? [= <-]. exists modelId. eexists. split_and!; try done.
    by rewrite Eget. }
  destruct (if shouldUseFallback error then truthy (fallback_model r) else None)
    as [fallback|]; simpl.
  2:{ eexists. split; [reflexivity|]. simpl. split_and!; try done; try lia. }
  case_bool_decide; simpl.
  2:{ eexists. split; [reflexivity|]. simpl. split_and!; try done; try lia. }
  destruct (adapters_get (adapters r) fallback) as [adapter'|] eqn:Eget'; simpl.
  2:{ eexists. split; [reflexivity|]. simpl. split_and!; try done; try lia. }
  destruct (adapter' args) as [res|error'] eqn:Ecall'; simpl.
  - eexists. split; [reflexivity|]. simpl. split_and!; try done; try lia.
    intros ? [= <-]. exists fallback. eexists. split_and!; try done.
    by rewrite Eget'.
  - eexists. split; [reflexivity|]. simpl. split_and!; try done; try lia.
Qed.




End RouterMore.

(* ===================================================================== *)
(** * More on the adapters *)
(* ===================================================================== *)

Section AdapterMore.
Import ModelRouter.

(** [call] once the query is there: the timer is started, the vendor is
    asked once, and its answer is formatted or its error translated. *)
Lemma call_with_query self options started finished args :
  truthy (query args) ≠ None →
  AnthropicAdapter.call self options started finished args =
  let self' := AnthropicAdapter.with_base self
                 (BaseAdapter.startTimer started (AnthropicAdapter.base self)) in
  match AnthropicAdapter.create self (AnthropicAdapter.requestParams self options args) with
  | AnthropicAdapter.Resolved completion =>
      (self',
       Return (BaseAdapter.formatResponse (AnthropicAdapter.base self') finished
                 (join "" (AnthropicAdapter.text <$>
                             filter (λ item, AnthropicAdapter.type item = "text")
                               (AnthropicAdapter.completion_content completion)))
                 (AnthropicAdapter.completion_usage completion)
                 (AnthropicAdapter.completion_model completion)))
  | AnthropicAdapter.Rejected error =>
      (self', Throw (BaseAdapter.handleError (AnthropicAdapter.base self') error))
  end.
Proof.
  intros Hq. unfold AnthropicAdapter.call, BaseAdapter.validateArgs, BaseAdapter.args_get.
  simpl. destruct (truthy (query args)); [reflexivity|done].
Qed.

(** X14. Every error an adapter throws for a failed vendor call carries one of
    five codes and no [retryAfter]. [MODEL_NOT_AVAILABLE] is not among
    them, so on these errors the router's retry test is the test on the
    three codes and the three phrases; and the code is one of the three
    exactly when the vendor's message mentions a rate limit, or mentions
    quota, billing or a timeout without mentioning authentication. *)
Theorem handleError_codes_are_closed (self : BaseAdapter.t) (error : BaseAdapter.ApiError) :
  let thrown := BaseAdapter.handleError self error in
  (∃ c, code thrown = Some c ∧ c ∈ BaseAdapter.errorCodes)
  ∧ retryAfter thrown = None
  ∧ shouldUseFallback thrown = specified_retryable thrown
  ∧ codes_include fallbackCodes (code thrown)
    = BaseAdapter.message_includes "rate limit" error
      || negb (BaseAdapter.message_includes "authentication" error
               || BaseAdapter.message_includes "unauthorized" error)
         && (BaseAdapter.message_includes "quota" error
             || BaseAdapter.message_includes "billing" error
             || BaseAdapter.message_includes "timeout" error).
Proof.
  intros thrown. subst thrown.
  unfold BaseAdapter.handleError, shouldUseFallback, specified_retryable. simpl.
  generalize (BaseAdapter.createUserFriendlyError error). intros text.
  destruct (BaseAdapter.message_includes "rate limit" error);
    destruct (BaseAdapter.message_includes "authentication" error);
    destruct (BaseAdapter.message_includes "unauthorized" error);
    destruct (BaseAdapter.message_includes "quota" error);
    destruct (BaseAdapter.message_includes "billing" error);
    destruct (BaseAdapter.message_includes "timeout" error);
    (split_and!; [eexists; split; [reflexivity|]; unfold BaseAdapter.errorCodes;
                  repeat first [apply list_elem_of_here | apply list_elem_of_further]
                 |reflexivity|reflexivity|reflexivity]).
Qed.

Lemma adapter_rejected self options started finished args error :
  truthy (query args) ≠ None →
  AnthropicAdapter.create self (AnthropicAdapter.requestParams self options args)
  = AnthropicAdapter.Rejected error →
  AnthropicAdapter.adapter self options started finished args
  = Throw (BaseAdapter.handleError (AnthropicAdapter.base self) error).
Proof.
  intros Hq Hreply. unfold AnthropicAdapter.adapter.
  rewrite call_with_query by done. cbv zeta. rewrite Hreply. reflexivity.
Qed.

Lemma adapter_resolved self options started finished args completion :
  truthy (query args) ≠ None →
  AnthropicAdapter.create self (AnthropicAdapter.requestParams self options args)
  = AnthropicAdapter.Resolved completion →
  AnthropicAdapter.adapter self options started finished args
  = Return (AnthropicAdapter.as_result
              (BaseAdapter.formatResponse
                 (BaseAdapter.startTimer started (AnthropicAdapter.base self)) finished
                 (join "" (AnthropicAdapter.text <$>
                             filter (λ item, AnthropicAdapter.type item = "text")
                               (AnthropicAdapter.completion_content completion)))
                 (AnthropicAdapter.completion_usage completion)
                 (AnthropicAdapter.completion_model completion))).
Proof.
  intros Hq Hreply. unfold AnthropicAdapter.adapter.
  rewrite call_with_query by done. cbv zeta. rewrite Hreply. reflexivity.
Qed.

(** X15. A vendor failure that [createUserFriendlyError] reads as an exhausted
    quota, a rate limit (HTTP 429 among them) or a missing model makes the
    router try the fallback model, whatever code [handleError] attached:
    the text shown to the user for these three contains one of the phrases
    the router looks for. *)
Theorem vendor_limit_errors_reach_the_fallback
    (r : t) (modelId fallback : string) (self : AnthropicAdapter.t)
    (options : AnthropicAdapter.Options) (started finished : Z) (args : Args)
    (error : BaseAdapter.ApiError) :
  adapters_get (adapters r) modelId
  = Some (AnthropicAdapter.adapter self options started finished) →
  truthy (query args) ≠ None →
  AnthropicAdapter.create self (AnthropicAdapter.requestParams self options args)
  = AnthropicAdapter.Rejected error →
  let message := default "" (BaseAdapter.api_message error) in
  let status := BaseAdapter.status_of error in
  BaseAdapter.apiKeyIssue status message = false →
  BaseAdapter.quotaIssue message || BaseAdapter.rateLimitIssue status message
  || BaseAdapter.modelIssue message = true →
  truthy (fallback_model r) = Some fallback →
  fallback ≠ modelId →
  shouldUseFallback (BaseAdapter.handleError (AnthropicAdapter.base self) error) = true
  ∧ callModel 2 r modelId args = Some ([modelId; fallback], attempt r fallback args).
Proof.
  intros Hget Hq Hreply message status Hkey Hcat Hfb Hne. subst message status.
  assert (Hretry :
    shouldUseFallback (BaseAdapter.handleError (AnthropicAdapter.base self) error) = true).
  { unfold shouldUseFallback, BaseAdapter.handleError. simpl.
    unfold BaseAdapter.createUserFriendlyError. cbv zeta. rewrite Hkey.
    destruct (BaseAdapter.quotaIssue _).
    { apply orb_true_iff. right. reflexivity. }
    destruct (BaseAdapter.rateLimitIssue _ _).
    { apply orb_true_iff. left. apply orb_true_iff. right. reflexivity. }
    destruct (BaseAdapter.modelIssue _); [|done].
    apply orb_true_iff. left. apply orb_true_iff. left. apply orb_true_iff. right.
    reflexivity. }
  split; [exact Hretry|].
  rewrite callModel_unfold, Hget, (adapter_rejected _ _ _ _ _ error) by done.
  rewrite Hretry, Hfb. rewrite bool_decide_true by congruence. reflexivity.
Qed.

Lemma vendor_limit_errors_reach_the_fallback_witness :
  let error := BaseAdapter.mkApiError (Some "Too Many Requests") (Some 429%Z) None in
  let claude :=
    AnthropicAdapter.mkAnthropic
      (BaseAdapter.mkAdapter (Some "anthropic") (Some "claude-3-5-sonnet") (3 # 1000)%Q None)
      (AnthropicAdapter.defaultParams_of None None)
      (λ _, AnthropicAdapter.Rejected error) in
  let r := start (Some "o3-mini") (λ _, Return "o3")
             [("claude", AnthropicAdapter.adapter claude (AnthropicAdapter.mkOptions None None) 10 20)] in
  let args := mkArgs (Some "hi") None (Some "claude") None None in
  code (BaseAdapter.handleError (AnthropicAdapter.base claude) error) = Some "API_ERROR"
  ∧ callModel 2 r "claude" args = Some (["claude"; "o3-mini"], attempt r "o3-mini" args).
Proof.
  intros error claude r args. split; [reflexivity|].
  apply (vendor_limit_errors_reach_the_fallback r "claude" "o3-mini" claude
           (AnthropicAdapter.mkOptions None None) 10 20 args error);
    try reflexivity; done.
Defined.

(** X16. A vendor failure read as a bad API key (HTTP 401 among them), an
    unavailable service, a network problem or an unsupported parameter is
    retried on the fallback only for its code: the text shown to the user
    contains none of the router's phrases. So it is not retried when the
    vendor's message mentions neither a rate limit nor quota, billing or a
    timeout. *)
Theorem other_vendor_errors_are_retried_by_code
    (self : BaseAdapter.t) (error : BaseAdapter.ApiError) :
  let message := default "" (BaseAdapter.api_message error) in
  let status := BaseAdapter.status_of error in
  let thrown := BaseAdapter.handleError self error in
  BaseAdapter.apiKeyIssue status message = true
  ∨ (BaseAdapter.quotaIssue message || BaseAdapter.rateLimitIssue status message
     || BaseAdapter.modelIssue message = false
     ∧ BaseAdapter.serviceIssue message || BaseAdapter.networkIssue message
       || BaseAdapter.parameterIssue message = true) →
  shouldUseFallback thrown
  = codes_include ["RATE_LIMIT_EXCEEDED"; "QUOTA_EXCEEDED"; "TIMEOUT"] (code thrown)
  ∧ (BaseAdapter.message_includes "rate limit" error = false →
     BaseAdapter.message_includes "quota" error = false →
     BaseAdapter.message_includes "billing" error = false →
     BaseAdapter.message_includes "timeout" error = false →
     shouldUseFallback thrown = false).
Proof.
  intros message status thrown H. subst message status thrown.
  assert (Htext :
    includes "not available" (BaseAdapter.createUserFriendlyError error) = false
    ∧ includes "rate limit" (BaseAdapter.createUserFriendlyError error) = false
    ∧ includes "quota" (BaseAdapter.createUserFriendlyError error) = false).
  { unfold BaseAdapter.createUserFriendlyError. cbv zeta.
    destruct (BaseAdapter.apiKeyIssue _ _); [split_and!; reflexivity|].
    destruct H as [H|[H1 H2]]; [done|].
    apply orb_false_iff in H1 as [[H1 H3]%orb_false_iff H4]. rewrite H1, H3, H4.
    destruct (BaseAdapter.serviceIssue _); [split_and!; reflexivity|].
    destruct (BaseAdapter.networkIssue _); [split_and!; reflexivity|].
    destruct (BaseAdapter.parameterIssue _); [split_and!; reflexivity|done]. }
  destruct Htext as (Ha & Hr & Hq).
  unfold shouldUseFallback, BaseAdapter.handleError. cbn [message code].
  rewrite Ha, Hr, Hq. clear.
  destruct (BaseAdapter.message_includes "rate limit" error);
    destruct (BaseAdapter.message_includes "authentication" error);
    destruct (BaseAdapter.message_includes "unauthorized" error);
    destruct (BaseAdapter.message_includes "quota" error);
    destruct (BaseAdapter.message_includes "billing" error);
    destruct (BaseAdapter.message_includes "timeout" error);
    (split; [reflexivity|]); try done; intros; reflexivity.
Qed.

Lemma other_vendor_errors_are_retried_by_code_witness :
  let self := BaseAdapter.mkAdapter (Some "anthropic") (Some "claude-3-5-sonnet") 0%Q None in
  shouldUseFallback
    (BaseAdapter.handleError self (BaseAdapter.mkApiError (Some "Unauthorized") (Some 401%Z) None))
  = false
  ∧ shouldUseFallback
      (BaseAdapter.handleError self
         (BaseAdapter.mkApiError (Some "503 service_unavailable") None (Some 503%Z)))
    = false.
Proof.
  intros self. split.
  - apply (other_vendor_errors_are_retried_by_code self
             (BaseAdapter.mkApiError (Some "Unauthorized") (Some 401%Z) None));
      [left|..]; reflexivity.
  - apply (other_vendor_errors_are_retried_by_code self
             (BaseAdapter.mkApiError (Some "503 service_unavailable") None (Some 503%Z)));
      [right; split|..]; reflexivity.
Defined.

(** X17. A request without a query never reaches the vendor: the adapter throws
    before it starts its timer, the error has no code and none of the
    router's phrases, and the router throws it on without trying the
    fallback model. *)
Theorem missing_query_is_not_retried
    (fuel : nat) (r : t) (modelId : string) (self : AnthropicAdapter.t)
    (options : AnthropicAdapter.Options) (started finished : Z) (args : Args) :
  truthy (query args) = None →
  adapters_get (adapters r) modelId
  = Some (AnthropicAdapter.adapter self options started finished) →
  let thrown := mkError "Missing required field: query" None None in
  AnthropicAdapter.call self options started finished args = (self, Throw thrown)
  ∧ callModel (S fuel) r modelId args = Some ([modelId], Throw thrown).
Proof.
  intros Hq Hget thrown.
  assert (Hcall : AnthropicAdapter.call self options started finished args
                  = (self, Throw thrown)).
  { unfold AnthropicAdapter.call, BaseAdapter.validateArgs, BaseAdapter.args_get.
    simpl. rewrite Hq. reflexivity. }
  split; [exact Hcall|].
  simpl. rewrite Hget. unfold AnthropicAdapter.adapter. rewrite Hcall. reflexivity.
Qed.

Lemma missing_query_is_not_retried_witness :
  let claude :=
    AnthropicAdapter.mkAnthropic
      (BaseAdapter.mkAdapter (Some "anthropic") (Some "claude-3-5-sonnet") (3 # 1000)%Q None)
      (AnthropicAdapter.defaultParams_of None None)
      (λ _, AnthropicAdapter.Resolved (AnthropicAdapter.mkCompletion [] None None)) in
  let r := start (Some "o3-mini") (λ _, Return "o3")
             [("claude", AnthropicAdapter.adapter claude (AnthropicAdapter.mkOptions None None) 10 20)] in
  let args := mkArgs (Some "") (Some "notes") (Some "claude") None None in
  callModel 2 r "claude" args
  = Some (["claude"], Throw (mkError "Missing required field: query" None None)).
Proof.
  intros claude r args.
  apply (missing_query_is_not_retried 1 r "claude" claude
           (AnthropicAdapter.mkOptions None None) 10 20 args); reflexivity.
Defined.

Lemma or_num_falsy (x : option Z) (d : Z) :
  BaseAdapter.or_num x 0 = 0%Z → BaseAdapter.or_num x d = d.
Proof. destruct x as [[| |]|]; simpl; congruence. Qed.

(** X18. When the vendor's usage has no [total_tokens] (Anthropic's has
    [input_tokens] and [output_tokens] only), a request that succeeds is
    returned and logged with 0 tokens, while its cost is charged on the
    input and output tokens: the collector's token total does not move and
    its cost total does. *)
Theorem usage_without_total_is_logged_with_zero_tokens
    (r : t) (clock : Clock) (args : Args) (modelId : string)
    (self : AnthropicAdapter.t) (options : AnthropicAdapter.Options)
    (started finished : Z) (completion : AnthropicAdapter.Completion) :
  (RateLimiter.checkLimit (Some (getClientIdentifier args)) (limiterNow clock)
     (rateLimiter r)).2 = Return tt →
  truthy (model args) = Some modelId →
  truthy (query args) ≠ None →
  adapters_get (adapters r) modelId
  = Some (AnthropicAdapter.adapter self options started finished) →
  AnthropicAdapter.create self (AnthropicAdapter.requestParams self options args)
  = AnthropicAdapter.Resolved completion →
  let usage := default BaseAdapter.no_usage (AnthropicAdapter.completion_usage completion) in
  let rate := BaseAdapter.costPer1kTokens (AnthropicAdapter.base self) in
  BaseAdapter.or_num (BaseAdapter.total_tokens usage) 0 = 0%Z →
  Qeq_bool rate 0 = false →
  let charge :=
    Qmult (Qdiv (inject_Z (BaseAdapter.charged_tokens usage)) (inject_Z 1000)) rate in
  ∃ run res,
    routeQuery 2 args clock r = Some run
    ∧ called run = [modelId]
    ∧ result run = Return res
    ∧ total_tokens res = Some 0%Z
    ∧ cost res = Some charge
    ∧ MetricsCollector.requests (metrics (router run))
      = MetricsCollector.requests (metrics r)
        ++ [MetricsCollector.mkRequest modelId 0 charge
              (endTime clock - startTime clock) true (recordNow clock)]
    ∧ MetricsCollector.total_tokens (MetricsCollector.totals (metrics (router run)))
      = MetricsCollector.total_tokens (MetricsCollector.totals (metrics r))
    ∧ MetricsCollector.total_cost (MetricsCollector.totals (metrics (router run)))
      = Qplus (MetricsCollector.total_cost (MetricsCollector.totals (metrics r))) charge
    ∧ ((0 < rate)%Q → (0 < BaseAdapter.charged_tokens usage)%Z → (0 < charge)%Q).
Proof.
  intros Hadmit Hmodel Hq Hget Hreply usage rate Htotal Hrate charge.
  pose proof (adapter_resolved self options started finished args completion Hq Hreply)
    as Hcall.
  set (res := AnthropicAdapter.as_result _) in Hcall.
  assert (Htokens : total_tokens res = Some 0%Z).
  { subst res. unfold AnthropicAdapter.as_result, BaseAdapter.formatResponse.
    cbn [total_tokens BaseAdapter.usage BaseAdapter.total_tokens].
    fold usage. by rewrite Htotal. }
  assert (Hcost : cost res = Some charge).
  { subst res. unfold AnthropicAdapter.as_result, BaseAdapter.formatResponse.
    cbn [cost BaseAdapter.cost]. fold usage.
    unfold BaseAdapter.calculateCost, BaseAdapter.startTimer.
    cbn [BaseAdapter.costPer1kTokens]. fold rate. rewrite Hrate.
    rewrite (or_num_falsy _ _ Htotal). reflexivity. }
  clearbody res.
  unfold routeQuery.
  destruct (RateLimiter.checkLimit _ _ _) as [rl o]. simpl in Hadmit. subst o.
  rewrite Hmodel, callModel_unfold, Hget, Hcall.
  eexists _, res. split; [reflexivity|]. cbn [called result router].
  unfold with_state, recordMetrics, tokens_or_0, cost_or_0, MetricsCollector.record.
  cbn [metrics mbind option_bind default MetricsCollector.metric_model
       MetricsCollector.metric_tokens MetricsCollector.metric_cost
       MetricsCollector.metric_duration MetricsCollector.metric_success
       MetricsCollector.metric_timestamp MetricsCollector.requests
       MetricsCollector.totals MetricsCollector.total_tokens MetricsCollector.total_cost].
  rewrite Htokens, Hcost. cbn [default].
  split_and!; try reflexivity.
  - apply Z.add_0_r.
  - intros Hpos Hcharged. subst charge. apply Qmult_lt_0_compat; [|exact Hpos].
    apply Qlt_shift_div_l; [reflexivity|]. rewrite Qmult_0_l.
    change (inject_Z 0 < inject_Z (BaseAdapter.charged_tokens usage))%Q.
    rewrite <- Zlt_Qlt. exact Hcharged.
Qed.

Lemma usage_without_total_is_logged_with_zero_tokens_witness :
  let usage := BaseAdapter.mkUsage None (Some 1200%Z) None (Some 800%Z) None None in
  let claude :=
    AnthropicAdapter.mkAnthropic
      (BaseAdapter.mkAdapter (Some "anthropic") (Some "claude-3-5-sonnet") (3 # 1000)%Q None)
      (AnthropicAdapter.defaultParams_of None None)
      (λ _, AnthropicAdapter.Resolved
              (AnthropicAdapter.mkCompletion [AnthropicAdapter.mkBlock "text" "hello"]
                 (Some usage) (Some "claude-3-5-sonnet-20241022"))) in
  let r := start None (λ _, Return "o3")
             [("claude", AnthropicAdapter.adapter claude (AnthropicAdapter.mkOptions None None) 10 20)] in
  let args := mkArgs (Some "hi") None (Some "claude") None None in
  ∃ run,
    routeQuery 2 args (mkClock 5 6 30 31) r = Some run
    ∧ MetricsCollector.requests (metrics (router run))
      = [MetricsCollector.mkRequest "claude" 0
           (Qmult (Qdiv (inject_Z 2000) (inject_Z 1000)) (3 # 1000)) 25 true 31].
Proof.
  intros usage claude r args.
  destruct (usage_without_total_is_logged_with_zero_tokens r (mkClock 5 6 30 31) args "claude"
              claude (AnthropicAdapter.mkOptions None None) 10 20
              (AnthropicAdapter.mkCompletion [AnthropicAdapter.mkBlock "text" "hello"]
                 (Some usage) (Some "claude-3-5-sonnet-20241022")))
    as (run & res & Hrun & _ & _ & _ & _ & Hlog & _); try reflexivity; [done|].
  exists run. split; [exact Hrun|exact Hlog].
Defined.

End AdapterMore.

(* ===================================================================== *)
(** * The statistics report *)
(* ===================================================================== *)

Section StatsMore.
Import MetricsCollector.

Lemma length_filter_within {A : Type} (P Q : A → Prop)
    `{∀ x, Decision (P x)} `{∀ x, Decision (Q x)} (l : list A) :
  length (filter P (filter Q l)) ≤ length (filter P l).
Proof.
  induction l as [|x l IH]; [done|].
  rewrite (filter_cons Q). destruct (decide (Q x)).
  - rewrite !(filter_cons P). destruct (decide (P x)); simpl; lia.
  - rewrite (filter_cons P). destruct (decide (P x)); simpl; lia.
Qed.

Lemma new_totals_agree : totals_agree new.
Proof. by split_and!. Qed.

Lemma record_totals_agree now metric mc :
  totals_agree mc → totals_agree (record now metric mc).
Proof.
  intros (Hn & Hs & Hf & Ht & Hc). unfold totals_agree, record. simpl.
  rewrite !filter_app, !length_app, sum_tokens_snoc, sum_cost_snoc, Hn, Ht, Hc.
  simpl. split_and!; try done; try lia.
  - destruct (default true (metric_success metric)) eqn:E.
    + rewrite filter_cons_True by done. simpl. lia.
    + rewrite filter_cons_False by (simpl; congruence). simpl. lia.
  - destruct (default true (metric_success metric)) eqn:E.
    + rewrite filter_cons_False by (simpl; intros H; by apply H). simpl. lia.
    + rewrite filter_cons_True by (simpl; congruence). simpl. lia.
Qed.

Lemma record_all_totals_agree entries :
  ∀ mc, totals_agree mc → totals_agree (record_all entries mc).
Proof.
  induction entries as [|e entries IH]; intros mc Hmc; simpl; [done|].
  apply IH. by apply record_totals_agree.
Qed.



(** X19. With no filter, and as long as nothing was cleaned up, the overview
    of [getStats] recomputed from the log is the totals [record] kept. A
    [cleanup] shortens the log and leaves the totals, so after it the
    overview counts the requests of the last seven days only and can fall
    short of the totals. The recent requests and the daily and hourly usage
    of the report do not depend on the options. *)
Theorem overview_matches_totals_until_cleanup
    (entries : list (Z * Metric)) (now monthAgo : Z) :
  let mc := record_all entries new in
  let ov := overview (getStats (mkStatsOptions None None) now monthAgo mc) in
  (ov_total_requests ov = total_requests (totals mc)
   ∧ ov_successful_requests ov = successful_requests (totals mc)
   ∧ ov_failed_requests ov = failed_requests (totals mc)
   ∧ ov_total_tokens ov = total_tokens (totals mc)
   ∧ ov_total_cost ov = toFixed4 (total_cost (totals mc)))
  ∧ (∀ t,
       let mc' := cleanup t mc in
       let ov' := overview (getStats (mkStatsOptions None None) now monthAgo mc') in
       totals mc' = totals mc
       ∧ ov_total_requests ov'
         = length (filter (λ r, (t - 604800000 < timestamp r)%Z) (requests mc))
       ∧ ov_total_requests ov' ≤ total_requests (totals mc')
       ∧ ov_successful_requests ov' ≤ successful_requests (totals mc')
       ∧ ov_failed_requests ov' ≤ failed_requests (totals mc'))
  ∧ (∀ options,
       let stats := getStats options now monthAgo mc in
       recent_requests stats = getRecentRequests 5 mc
       ∧ daily_usage stats = getDailyUsage 7 now mc
       ∧ hourly_usage stats = getHourlyUsage 24 now mc).
Proof.
  intros mc ov.
  destruct (record_all_totals_agree entries new new_totals_agree)
    as (Hn & Hs & Hf & Ht & Hc).
  fold mc in Hn, Hs, Hf, Ht, Hc. split_and!; try done.
  - by rewrite Hc.
  - intros t mc' ov'. subst ov' mc'. unfold getStats, cleanup. simpl.
    rewrite Hn, Hs, Hf. split_and!; try done.
    + apply length_filter.
    + apply length_filter_within.
    + apply length_filter_within.
Qed.



End StatsMore.

(* ===================================================================== *)
(** * The choice of the model *)
(* ===================================================================== *)

Section SelectorMore.
Import ModelSelector.

(** ** The comparison of doubles *)




Lemma Qc_strict : StrictComparison Qc.
Proof.
  split.
  - intros x. unfold gtb. simpl. apply bool_decide_eq_false. apply Qlt_irrefl.
  - intros x y z. unfold gtb. simpl. rewrite !bool_decide_eq_true.
    intros Hxy Hyz. by apply (Qclt_trans z y x).
Qed.

(** ** The loop of [selectBestModel] *)

Section Choice.
Context {R : Type} `{Number R} `{Ordered R}.



End Choice.



Section Ties.
Context {R : Type} `{Number R} `{Ordered R}.



End Ties.



(** ** Upper and lower case *)

Lemma toLowerCase_app (s1 s2 : string) :
  toLowerCase (s1 +:+ s2) = toLowerCase s1 +:+ toLowerCase s2.
Proof. induction s1 as [|c s1 IH]; simpl; [done|]. by rewrite IH. Qed.

Lemma code_char_lower (c : Ascii.ascii) : code_char (lower c) = code_char c.
Proof. destruct c as [[] [] [] [] [] [] [] []]; reflexivity. Qed.

Lemma math_char_lower (c : Ascii.ascii) : math_char (lower c) = math_char c.
Proof. destruct c as [[] [] [] [] [] [] [] []]; reflexivity. Qed.

Lemma test_class_lower (class : Ascii.ascii → bool) (s : string) :
  (∀ c, class (lower c) = class c) →
  test_class class (toLowerCase s) = test_class class s.
Proof. intros Hc. induction s as [|c s IH]; simpl; [done|]. by rewrite Hc, IH. Qed.

(** X24. Two requests whose queries and contexts differ only in the case of
    ASCII letters get the same weights, and so the same model. *)
Theorem analyzeQuery_ignores_case (query query' context context' : string) :
  toLowerCase query = toLowerCase query' →
  toLowerCase context = toLowerCase context' →
  analyzeQuery query context = analyzeQuery query' context'
  ∧ ∀ config preferences,
      selectBestModel (R := float) config query context preferences
      = selectBestModel (R := float) config query' context' preferences.
Proof.
  intros Hq Hc.
  assert (Hsame : analyzeQuery query context = analyzeQuery query' context').
  { unfold analyzeQuery.
    rewrite <- (test_class_lower code_char query code_char_lower),
            <- (test_class_lower code_char query' code_char_lower),
            <- (test_class_lower math_char query math_char_lower),
            <- (test_class_lower math_char query' math_char_lower).
    rewrite !toLowerCase_app, Hq, Hc. reflexivity. }
  split; [exact Hsame|]. intros config preferences.
  unfold selectBestModel, queryWeights. by rewrite Hsame.
Qed.

Lemma analyzeQuery_ignores_case_witness :
  analyzeQuery "Explain WHY the Code fails" "PYTHON 3"
  = analyzeQuery "explain why the code fails" "python 3".
Proof.
  apply (analyzeQuery_ignores_case "Explain WHY the Code fails" "explain why the code fails"
           "PYTHON 3" "python 3"); reflexivity.
Defined.

End SelectorMore.

(* ===================================================================== *)
(** * The service behind the server *)
(* ===================================================================== *)

Section ServiceMore.
Import O3ProService.

(** What one [query] does to the service. *)
Lemma query_step (args : ModelRouter.Args) (clock : ModelRouter.Clock) (service : t) :
  let check := RateLimiter.checkLimit (Some (getClientIdentifier args))
                 (ModelRouter.limiterNow clock) (rateLimiter service) in
  let service' := (query args clock service).1 in
  let settled := (query args clock service).2 in
  adapter service' = adapter service
  ∧ rateLimiter service' = check.1
  ∧ settled = match check.2 with
              | Throw error => Throw error
              | Return _ => adapter service args
              end
  ∧ metrics service'
    = recordMetrics (match settled with Return result => Some result | Throw _ => None end)
        (ModelRouter.endTime clock - ModelRouter.startTime clock) (negb (threw settled))
        (ModelRouter.recordNow clock) (metrics service).
Proof.
  unfold query, callO3ProWithFunctions.
  destruct (RateLimiter.checkLimit _ _ _) as [rl [[]|error]]; simpl; [|done].
  destruct (adapter service args); done.
Qed.

Lemma query_all_cons args clock queries service :
  query_all ((args, clock) :: queries) service
  = ((query_all queries (query args clock service).1).1,
     (query args clock service).2 :: (query_all queries (query args clock service).1).2).
Proof.
  simpl. destruct (query args clock service) as [service' settled]. simpl.
  by destruct (query_all queries service').
Qed.

Lemma query_all_run (queries : list (ModelRouter.Args * ModelRouter.Clock)) :
  ∀ service,
    let run := query_all queries service in
    let mc := metrics service in
    let mc' := metrics run.1 in
    adapter run.1 = adapter service
    ∧ length run.2 = length queries
    ∧ MetricsCollector.requests mc'
      = MetricsCollector.requests mc ++ zip_with (λ q settled, entry_of q.2 settled) queries run.2
    ∧ MetricsCollector.total_requests (MetricsCollector.totals mc')
      = MetricsCollector.total_requests (MetricsCollector.totals mc) + length queries
    ∧ MetricsCollector.successful_requests (MetricsCollector.totals mc')
      = MetricsCollector.successful_requests (MetricsCollector.totals mc)
        + length (filter (λ settled, threw settled = false) run.2)
    ∧ MetricsCollector.failed_requests (MetricsCollector.totals mc')
      = MetricsCollector.failed_requests (MetricsCollector.totals mc)
        + length (filter (λ settled, threw settled = true) run.2)
    ∧ (∀ k, k ≠ "o3-pro" →
         MetricsCollector.models mc' !! k = MetricsCollector.models mc !! k)
    ∧ (∀ i result, run.2 !! i = Some (Return result) →
         ∃ q, queries !! i = Some q ∧ adapter service q.1 = Return result).
Proof.
  induction queries as [|[args clock] queries IH]; intros service.
  { simpl. rewrite app_nil_r. split_and!; try done; lia. }
  cbv zeta. rewrite query_all_cons.
  destruct (query_step args clock service) as (Ha & _ & Hs & Hm).
  specialize (IH (query args clock service).1). cbv zeta in IH.
  destruct IH as (IHa & IHl & IHr & IHt & IHs & IHf & IHk & IHi).
  cbn [fst snd]. rewrite IHa, Ha, IHr, IHt, IHs, IHf, Hm. cbn [length zip_with].
  rewrite IHl.
  set (settled := (query args clock service).2) in *.
  unfold recordMetrics, MetricsCollector.record.
  cbn [MetricsCollector.requests MetricsCollector.totals MetricsCollector.total_requests
       MetricsCollector.successful_requests MetricsCollector.failed_requests
       MetricsCollector.metric_model MetricsCollector.metric_tokens
       MetricsCollector.metric_cost MetricsCollector.metric_duration
       MetricsCollector.metric_success MetricsCollector.metric_timestamp default].
  split_and!.
  - done.
  - done.
  - rewrite <- app_assoc. reflexivity.
  - lia.
  - rewrite filter_cons. destruct (threw settled); simpl; lia.
  - rewrite filter_cons. destruct (threw settled); simpl; lia.
  - intros k Hk. rewrite IHk by done. rewrite Hm. unfold recordMetrics, MetricsCollector.record.
    cbn [MetricsCollector.models MetricsCollector.metric_model].
    by rewrite lookup_insert_ne.
  - intros [|i] result Hi.
    + exists (args, clock). split; [done|]. simpl in Hi. injection Hi as Hi.
      fold settled in Hs. rewrite Hi in Hs. simpl.
      destruct (RateLimiter.checkLimit _ _ _).2; [by symmetry|done].
    + destruct (IHi i result Hi) as (q & Hq & Hres). exists q. split; [done|].
      by rewrite <- Ha.
Qed.

(** X25. Every query leaves exactly one entry in the log, under the model
    ['o3-pro'], also one the rate limiter rejected: after any run of
    queries on a new service the collector's total is the number of
    queries, its successful and failed counts are the numbers of queries
    that returned and that threw, no other model has aggregates, and a
    result that is returned is the adapter's for that query. *)
Theorem every_query_is_recorded
    (adapter : ModelRouter.Adapter) (rate_limits : RateLimiter.Config)
    (queries : list (ModelRouter.Args * ModelRouter.Clock)) :
  let run := query_all queries (new adapter rate_limits) in
  let mc := metrics run.1 in
  length run.2 = length queries
  ∧ MetricsCollector.requests mc = zip_with (λ q settled, entry_of q.2 settled) queries run.2
  ∧ MetricsCollector.total_requests (MetricsCollector.totals mc) = length queries
  ∧ MetricsCollector.successful_requests (MetricsCollector.totals mc)
    = length (filter (λ settled, threw settled = false) run.2)
  ∧ MetricsCollector.failed_requests (MetricsCollector.totals mc)
    = length (filter (λ settled, threw settled = true) run.2)
  ∧ (∀ k, k ≠ "o3-pro" → MetricsCollector.models mc !! k = None)
  ∧ (∀ i result, run.2 !! i = Some (Return result) →
       ∃ q, queries !! i = Some q ∧ adapter q.1 = Return result).
Proof.
  intros run mc.
  destruct (query_all_run queries (new adapter rate_limits))
    as (_ & Hl & Hr & Ht & Hs & Hf & Hk & Hi).
  fold run in Hl, Hr, Ht, Hs, Hf, Hk, Hi. fold mc in Hr, Ht, Hs, Hf, Hk.
  split_and!; done.
Qed.

End ServiceMore.
